(** * Audio Transcription API: a shallow embedding of [main.py]

    The service keeps a process-wide registry [models] of lazily loaded
    Whisper models, loads a model with retries and exponential backoff, and
    handles an upload by writing it to a scratch file, transcribing that file
    and unlinking it.

    The handler is embedded as a state-and-exception monad over a [world]
    (the registry, the set of existing paths, and the history of external
    calls).  The external collaborators (the model loader, [tempfile], the
    upload object, the model's [transcribe]) are an [environment]: every
    answer may depend on the whole history and may be an exception.
    Logging is not modelled.  An external call returns, raises an exception
    deriving from [Exception], or is left by one that does not
    ([CancelledError] thrown into an [await], [KeyboardInterrupt],
    [SystemExit]), which no [except Exception] catches.  Requests are
    served one after the other.  The file system
    is the set of existing paths: [os.unlink] behaves as on POSIX (an open
    file can be unlinked, a missing one is a [FileNotFoundError]), and
    closing the scratch file when the [with] block is left does not fail. *)

From Stdlib Require Import ZArith Ascii String List Bool Lia.
From Stdlib Require Import Floats.SpecFloat.
From stdpp Require Import base gmap sets strings pretty.

Local Open Scope string_scope.
Local Open Scope list_scope.
Local Open Scope Z_scope.

(** ** Python strings: [str.lower], [str.join], [os.path.splitext] *)

Module Str.

(** [c.lower()] on an ASCII character. *)
Definition lower_ascii (c : ascii) : ascii :=
  let n := N_of_ascii c in
  if ((65 <=? n) && (n <=? 90))%N then ascii_of_N (n + 32) else c.

Fixpoint lower (s : string) : string :=
  match s with
  | EmptyString => EmptyString
  | String c s' => String (lower_ascii c) (lower s')
  end.

(** [sep.join(xs)] *)
Definition join (sep : string) (xs : list string) : string :=
  String.concat sep xs.

(** [p.rfind(c)]: the index of the last [c] in [p], [-1] when there is none. *)
Fixpoint rfind_from (c : ascii) (p : string) (i last : Z) : Z :=
  match p with
  | EmptyString => last
  | String a p' => rfind_from c p' (i + 1) (if Ascii.eqb a c then i else last)
  end.

Definition rfind (c : ascii) (p : string) : Z := rfind_from c p 0 (-1).

(** [p[:k]] and [p[k:]] for [0 <= k]. *)
Definition slice_to (p : string) (k : Z) : string :=
  String.substring 0 (Z.to_nat k) p.

Definition slice_from (p : string) (k : Z) : string :=
  String.substring (Z.to_nat k) (String.length p - Z.to_nat k)%nat p.

(** The [while filenameIndex < dotIndex] loop of [genericpath._splitext]:
    the first character of the file name that is not a dot makes the
    split at [dotIndex]; a name made of dots only has no extension. *)
Fixpoint skip_leading_dots (p : string) (dotIndex : Z) (fuel : nat)
         (filenameIndex : Z) : string * string :=
  match fuel with
  | O => (p, "")
  | S fuel' =>
      match String.get (Z.to_nat filenameIndex) p with
      | Some c =>
          if Ascii.eqb c "."
          then skip_leading_dots p dotIndex fuel' (filenameIndex + 1)
          else (slice_to p dotIndex, slice_from p dotIndex)
      | None => (slice_to p dotIndex, slice_from p dotIndex)
      end
  end.

(** [os.path.splitext(p)] (posixpath: [sep = '/'], [extsep = '.']). *)
Definition splitext (p : string) : string * string :=
  let sepIndex := rfind "/" p in
  let dotIndex := rfind "." p in
  if (sepIndex <? dotIndex)%Z
  then skip_leading_dots p dotIndex
         (Z.to_nat (dotIndex - (sepIndex + 1))) (sepIndex + 1)
  else (p, "").

End Str.

(** ** Python values that reach [json.dumps] *)

(** A float is an IEEE 754 double. *)
#[local] Set Warnings "-register-all".
Inductive pyval : Type :=
| PyNone
| PyBool (b : bool)
| PyInt (n : Z)
| PyFloat (f : spec_float)
| PyStr (s : string)
| PyList (xs : list pyval)
| PyDict (kvs : list (string * pyval))
| PyObject (type_name : string).   (* anything the JSON encoder does not know *)

(** Exceptions: [HTTPException] is what the handler raises itself; every
    other exception is a class name and a message. *)
Inductive exn : Type :=
| HTTPException (status_code : Z) (detail : string)
| PyError (class_name : string) (message : string).

(** [str(e)].  Starlette prints an [HTTPException] as [status: detail]. *)
Definition str_exn (e : exn) : string :=
  match e with
  | HTTPException status_code detail => pretty status_code ++ ": " ++ detail
  | PyError _ message => message
  end.

(** The exceptions that derive from [BaseException] and not from
    [Exception]. *)
Inductive base_exception : Type :=
| CancelledError
| KeyboardInterrupt
| SystemExit
| GeneratorExit.

(** How a call ends: it returns, it raises an [Exception], or a
    [BaseException] that is no [Exception] unwinds it. *)
Inductive outcome (A : Type) : Type :=
| Ok (a : A)
| Raise (e : exn)
| Unwind (b : base_exception).
Arguments Ok {A} a.
Arguments Raise {A} e.
Arguments Unwind {A} b.

(** [repr(s)] of a [str] whose code points are below 256: single quotes,
    or double quotes when [s] holds a single quote and no double one; the
    quote in use and the backslash are escaped, tab, newline and carriage
    return are written [\t], [\n], [\r], and every other code point that
    is not printable is written [\xNN]. *)
Module Repr.

Definition squote : ascii := "039"%char.

Definition dquote : ascii := "034"%char.

Definition backslash : ascii := "092"%char.

Fixpoint contains (c : ascii) (s : string) : bool :=
  match s with
  | EmptyString => false
  | String a s' => Ascii.eqb a c || contains c s'
  end.

Definition printable (n : N) : bool :=
  ((32 <=? n) && (n <=? 126) || (161 <=? n) && (n <=? 255) && negb (n =? 173))%N.

Definition hex_digit (n : N) : ascii :=
  match String.get (N.to_nat n) "0123456789abcdef" with
  | Some d => d
  | None => "0"%char
  end.

Definition char (quote c : ascii) : string :=
  let n := N_of_ascii c in
  if Ascii.eqb c quote || Ascii.eqb c backslash then String backslash (String c "")
  else if (n =? 9)%N then String backslash "t"
  else if (n =? 10)%N then String backslash "n"
  else if (n =? 13)%N then String backslash "r"
  else if printable n then String c ""
  else String backslash
         (String "x" (String (hex_digit (n / 16)) (String (hex_digit (n mod 16)) ""))).

Fixpoint chars (quote : ascii) (s : string) : string :=
  match s with
  | EmptyString => EmptyString
  | String c s' => (char quote c ++ chars quote s')%string
  end.

Definition repr (s : string) : string :=
  let quote :=
    if contains squote s && negb (contains dquote s) then dquote else squote in
  String quote (chars quote s ++ String quote "").

End Repr.

(** ** Insertion-ordered dictionaries with string keys

    [models] is a Python [dict]: iteration follows insertion order (the 400
    message joins the keys in that order), and assigning to an existing key
    keeps its position. *)

Module Dict.
Section Dict.
Context {V : Type}.

(** [d.get(k)]; [None] stands for a missing key. *)
Fixpoint get (k : string) (d : list (string * V)) : option V :=
  match d with
  | [] => None
  | (k', v) :: d' => if String.eqb k k' then Some v else get k d'
  end.

(** [k in d] *)
Definition mem (k : string) (d : list (string * V)) : bool :=
  match get k d with Some _ => true | None => false end.

(** [d[k] = v] *)
Fixpoint set (k : string) (v : V) (d : list (string * V)) : list (string * V) :=
  match d with
  | [] => [(k, v)]
  | (k', v') :: d' =>
      if String.eqb k k' then (k', v) :: d' else (k', v') :: set k v d'
  end.

(** [d.keys()] *)
Definition keys (d : list (string * V)) : list string := map fst d.

End Dict.
End Dict.

(** [json.dumps(v, allow_nan=False)] either renders [v] or raises: a
    [ValueError] on a float that is not finite, a [TypeError] on an object
    without an encoder.  The first offender in traversal order decides. *)
Definition float_is_finite (f : spec_float) : bool :=
  match f with
  | S754_zero _ | S754_finite _ _ _ => true
  | S754_infinity _ | S754_nan => false
  end.

Fixpoint json_error (v : pyval) : option exn :=
  match v with
  | PyNone | PyBool _ | PyInt _ | PyStr _ => None
  | PyFloat f =>
      if float_is_finite f then None
      else Some (PyError "ValueError"
                   "Out of range float values are not JSON compliant")
  | PyList xs =>
      (fix first_error (l : list pyval) : option exn :=
         match l with
         | [] => None
         | x :: l' =>
             match json_error x with
             | Some e => Some e
             | None => first_error l'
             end
         end) xs
  | PyDict kvs =>
      (fix first_error (l : list (string * pyval)) : option exn :=
         match l with
         | [] => None
         | (_, x) :: l' =>
             match json_error x with
             | Some e => Some e
             | None => first_error l'
             end
         end) kvs
  | PyObject type_name =>
      Some (PyError "TypeError"
              ("Object of type " ++ type_name ++ " is not JSON serializable"))
  end.

(** ** The world *)

(** The identity of a loaded Whisper model object. *)
Definition model_obj := nat.

Record UploadFile : Type := { filename : string; payload : list Byte.byte }.

(** A response of [JSONResponse(content=...)]: the default status is 200. *)
Record JSONResponse : Type := { status : Z; content : pyval }.

(** External calls, in the order they were made. *)
Inductive event : Type :=
| LoadModel (model_size : string)              (* whisper.load_model *)
| Sleep (seconds : Z)                          (* time.sleep *)
| Create (name : string)                       (* NamedTemporaryFile made [name] *)
| ReadUpload                                   (* file.read() *)
| WriteFile (name : string) (data : list Byte.byte)
| Flush (name : string)
| Close (name : string)                        (* leaving the [with] block *)
| Transcribe (model : model_obj) (name : string)
| Unlink (name : string).                      (* os.unlink *)

Record world : Type := World {
  models : list (string * option model_obj);   (* the global [models] *)
  fs : gset string;                            (* the paths that exist *)
  trace : list event
}.

(** What the outside answers to each external call, given the history. *)
Record environment : Type := {
  whisper_load_model : list event -> string -> outcome model_obj;
  NamedTemporaryFile : list event -> string -> outcome string;
  upload_read : list event -> UploadFile -> outcome (list Byte.byte);
  temp_write : list event -> string -> list Byte.byte -> outcome unit;
  temp_flush : list event -> string -> outcome unit;
  whisper_transcribe :
    list event -> model_obj -> string -> outcome (list (string * pyval));
  (* the iteration order of a [set] of strings depends on the hash seed *)
  set_iteration : list string -> list string
}.

(** The registry the module starts with. *)
Definition initial_models : list (string * option model_obj) :=
  [("base", None); ("large", None)].

Definition initial_world (files : gset string) : world :=
  World initial_models files [].

(** ** The monad: state passing with exceptions *)

Definition M (S A : Type) : Type := S -> outcome A * S.

Definition ret {S A} (a : A) : M S A := fun s => (Ok a, s).

Definition raise {S A} (e : exn) : M S A := fun s => (Raise e, s).

Definition unwind {S A} (b : base_exception) : M S A := fun s => (Unwind b, s).

Definition bind {S A B} (c : M S A) (k : A -> M S B) : M S B :=
  fun s =>
    match c s with
    | (Ok a, s') => k a s'
    | (Raise e, s') => (Raise e, s')
    | (Unwind b, s') => (Unwind b, s')
    end.

Notation "'let*' x ':=' c 'in' k" := (bind c (fun x => k))
  (at level 10, x name, c at level 100, k at level 200).
Notation "'do*' c 'in' k" := (bind c (fun _ => k))
  (at level 10, c at level 100, k at level 200).

(** [try: body / except Exception as e: handler e]: what does not derive
    from [Exception] passes through. *)
Definition try_except {S A} (body : M S A) (handler : exn -> M S A) : M S A :=
  fun s =>
    match body s with
    | (Ok a, s') => (Ok a, s')
    | (Raise e, s') => handler e s'
    | (Unwind b, s') => (Unwind b, s')
    end.

(** [with ... :] the exit action runs however the body ends. *)
Definition with_exit {S A} (exit : M S unit) (body : M S A) : M S A :=
  fun s =>
    match body s with
    | (r, s') =>
        match exit s' with
        | (Ok _, s'') => (r, s'')
        | (Raise e, s'') => (Raise e, s'')
        | (Unwind b, s'') => (Unwind b, s'')
        end
    end.

Definition gets {S A} (f : S -> A) : M S A := fun s => (Ok (f s), s).

Definition modify {S} (f : S -> S) : M S unit := fun s => (Ok tt, f s).

(** The local variables of one call of [process_audio] that the handler
    inspects through [locals()]. *)
Record frame : Type := Frame { temp_file : option string }.

Definition lift {A} (c : M world A) : M (frame * world) A :=
  fun '(fr, w) => match c w with (r, w') => (r, (fr, w')) end.

(** Runs a body in a fresh frame, where [temp_file] is not bound yet. *)
Definition in_frame {A} (c : M (frame * world) A) : M world A :=
  fun w => match c (Frame None, w) with (r, (_, w')) => (r, w') end.

Definition of_outcome {S A} (r : outcome A) : M S A := fun s => (r, s).

(** ** The program *)

Section Program.

Variable env : environment.

Definition record (ev : event) : M world unit :=
  modify (fun w => World (models w) (fs w) (trace w ++ [ev])).

(** An external call: the environment answers from the history so far. *)
Definition external {A} (ev : event) (answer : list event -> outcome A)
  : M world A :=
  let* history := gets trace in
  do* record ev in
  of_outcome (answer history).

(** *** [load_model_with_retry]

    The [for attempt in range(max_retries)] loop, [todo] iterations to go.
    A loop that runs out returns Python's [None]. *)
Fixpoint retry_loop (model_size : string) (max_retries : Z)
         (todo : nat) (attempt : Z) : M world (option model_obj) :=
  match todo with
  | O => ret None
  | S todo' =>
      try_except
        (let* model := external (LoadModel model_size)
                         (fun h => whisper_load_model env h model_size) in
         ret (Some model))
        (fun e =>
           if (attempt <? max_retries - 1)%Z then
             let wait_time := (2 ^ attempt)%Z in
             do* record (Sleep wait_time) in
             retry_loop model_size max_retries todo' (attempt + 1)%Z
           else raise e)
  end.

Definition load_model_with_retry (model_size : string) (max_retries : Z)
  : M world (option model_obj) :=
  retry_loop model_size max_retries (Z.to_nat max_retries) 0.

(** [models[model_size]]: a [KeyError] on a missing key, whose [str] is
    the [repr] of the key. *)
Definition models_getitem (model_size : string)
  : M world (option model_obj) :=
  let* registry := gets models in
  match Dict.get model_size registry with
  | Some entry => ret entry
  | None => raise (PyError "KeyError" (Repr.repr model_size))
  end.

Definition models_setitem (model_size : string) (entry : option model_obj)
  : M world unit :=
  modify (fun w => World (Dict.set model_size entry (models w)) (fs w) (trace w)).

(** *** [get_model] *)
Definition get_model (model_size : string) : M world (option model_obj) :=
  let* entry := models_getitem model_size in
  do* (match entry with
       | None =>
           let* loaded := load_model_with_retry model_size 3 in
           models_setitem model_size loaded
       | Some _ => ret tt
       end) in
  models_getitem model_size.

(** *** The file system *)

(** [tempfile.NamedTemporaryFile(delete=False, suffix=...)]: on success
    the file exists and its name is returned. *)
Definition named_temporary_file (suffix : string) : M world string :=
  let* history := gets trace in
  match NamedTemporaryFile env history suffix with
  | Ok name =>
      do* modify (fun w => World (models w) ({[ name ]} ∪ fs w)
                                 (trace w ++ [Create name])) in
      ret name
  | Raise e => raise e
  | Unwind b => unwind b
  end.

(** [os.unlink(name)]: removes an existing path, a [FileNotFoundError]
    otherwise, whose [str] shows the [repr] of the name. *)
Definition os_unlink (name : string) : M world unit :=
  do* record (Unlink name) in
  let* files := gets fs in
  if decide (name ∈ files) then
    modify (fun w => World (models w) (fs w ∖ {[ name ]}) (trace w))
  else
    raise (PyError "FileNotFoundError"
             ("[Errno 2] No such file or directory: " ++ Repr.repr name)).

(** [model.transcribe(name)]; [model] may be Python's [None]. *)
Definition transcribe (model : option model_obj) (name : string)
  : M world (list (string * pyval)) :=
  match model with
  | Some m =>
      external (Transcribe m name) (fun h => whisper_transcribe env h m name)
  | None =>
      raise (PyError "AttributeError"
               "'NoneType' object has no attribute 'transcribe'")
  end.

(** [result[key]] on the dictionary [transcribe] returns. *)
Definition getitem {S} (d : list (string * pyval)) (key : string) : M S pyval :=
  match Dict.get key d with
  | Some v => ret v
  | None => raise (PyError "KeyError" (Repr.repr key))
  end.

(** [JSONResponse(content=...)] renders its content when it is built. *)
Definition new_JSONResponse {S} (c : pyval) : M S JSONResponse :=
  match json_error c with
  | Some e => raise e
  | None => ret {| status := 200; content := c |}
  end.

(** *** [process_audio] *)

Definition allowed_extensions : list string := [".mp3"; ".wav"; ".m4a"].

(** [x in s] for a set of strings *)
Definition set_mem (x : string) (s : list string) : bool :=
  existsb (String.eqb x) s.

(** [os.path.splitext(file.filename)[1].lower()] *)
Definition upload_ext (file : UploadFile) : string :=
  Str.lower (snd (Str.splitext (filename file))).

(** Writing the upload to the scratch file: [file.read()],
    [temp_file.write(content)], [temp_file.flush()]. *)
Definition write_upload (file : UploadFile) (name : string) : M world unit :=
  let* data := external ReadUpload (fun h => upload_read env h file) in
  do* external (WriteFile name data) (fun h => temp_write env h name data) in
  external (Flush name) (fun h => temp_flush env h name).

(** [JSONResponse(content={"text": result["text"],
                           "segments": result["segments"]})] *)
Definition respond {S} (result : list (string * pyval)) : M S JSONResponse :=
  let* text := getitem result "text" in
  let* segments := getitem result "segments" in
  new_JSONResponse (PyDict [("text", text); ("segments", segments)]).

(** The [try] block. *)
Definition try_block (file : UploadFile) (file_ext model_size : string)
  : M (frame * world) JSONResponse :=
  let* model := lift (get_model model_size) in
  let* name := lift (named_temporary_file file_ext) in
  do* modify (fun '(_, w) => (Frame (Some name), w)) in   (* as temp_file *)
  with_exit (lift (record (Close name)))
    (do* lift (write_upload file name) in
     let* result := lift (transcribe model name) in
     do* lift (os_unlink name) in
     respond result).

(** The [except Exception as e] block. *)
Definition except_block (e : exn) : M (frame * world) JSONResponse :=
  let* bound := gets (fun '(fr, _) => temp_file fr) in
  do* (match bound with                    (* 'temp_file' in locals() *)
       | Some name => lift (os_unlink name)
       | None => ret tt
       end) in
  raise (HTTPException 500 (str_exn e)).

Definition process_audio (file : option UploadFile) (model_size : string)
  : M world JSONResponse :=
  let* registry := gets models in
  if negb (Dict.mem model_size registry) then
    raise (HTTPException 400
             ("Invalid model size. Supported sizes: "
              ++ Str.join ", " (Dict.keys registry)))
  else
    match file with
    | None => raise (HTTPException 400 "No file provided")
    | Some file =>
        let file_ext := upload_ext file in
        if negb (set_mem file_ext allowed_extensions) then
          raise (HTTPException 400
                   ("File type not supported. Allowed types: "
                    ++ Str.join ", " (set_iteration env allowed_extensions)))
        else
          in_frame (try_except (try_block file file_ext model_size)
                               except_block)
    end.

(** *** The routes *)

Definition transcribe_audio_fast (file : option UploadFile)
  : M world JSONResponse :=
  process_audio file "base".

Definition transcribe_audio_accurate (file : option UploadFile)
  : M world JSONResponse :=
  process_audio file "large".

Definition model_status (registry : list (string * option model_obj))
  : list (string * pyval) :=
  map (fun '(name, model) =>
         (name, PyStr (match model with
                       | Some _ => "loaded"
                       | None => "not loaded"
                       end)))
      registry.

Definition root : M world pyval :=
  let* registry := gets models in
  ret (PyDict
         [("message", PyStr "Audio Transcription API is running");
          ("endpoints",
           PyDict
             [("/transcribe/fast",
               PyStr "Quick transcription using base model (~142MB)");
              ("/transcribe/accurate",
               PyStr "High-accuracy transcription using large model (~2.9GB)")]);
          ("model_status", PyDict (model_status registry))]).

End Program.

(** ** Vocabulary of the specifications *)

(** The events of [failures] failed attempts in a row, the first one being
    attempt number [attempt]: each load is followed by its wait. *)
Fixpoint backoff_trace (model_size : string) (attempt : Z) (failures : nat)
  : list event :=
  match failures with
  | O => []
  | S n =>
      LoadModel model_size :: Sleep (2 ^ attempt)
        :: backoff_trace model_size (attempt + 1) n
  end.

(** The events of [k] attempts of which only the last may have succeeded. *)
Definition attempts_trace (model_size : string) (attempt : Z) (k : nat)
  : list event :=
  match k with
  | O => []
  | S j => backoff_trace model_size attempt j ++ [LoadModel model_size]
  end.

Definition is_load (ev : event) : bool :=
  match ev with LoadModel _ => true | _ => false end.

Definition is_unlink (name : string) (ev : event) : bool :=
  match ev with Unlink n => String.eqb n name | _ => false end.

Definition count_loads (evs : list event) : nat :=
  length (List.filter is_load evs).

(** How often [os.unlink(name)] was called. *)
Definition count_unlinks (name : string) (evs : list event) : nat :=
  length (List.filter (is_unlink name) evs).

Section Stages.

Variable env : environment.

(** The three checks before the [try] block all pass. *)
Definition valid_request (w : world) (file : option UploadFile)
           (model_size : string) : bool :=
  Dict.mem model_size (models w)
  && match file with
     | Some f => set_mem (upload_ext f) allowed_extensions
     | None => false
     end.

(** The stages of the [try] block, each with the world it leaves. *)
Definition created (f : UploadFile) (model_size : string) (w : world)
           (model : option model_obj) (name : string) (w2 : world) : Prop :=
  exists w1,
    get_model env model_size w = (Ok model, w1)
    /\ named_temporary_file env (upload_ext f) w1 = (Ok name, w2).

Definition persisted (f : UploadFile) (model_size : string) (w : world)
           (model : option model_obj) (name : string) (w3 : world) : Prop :=
  exists w2,
    created f model_size w model name w2
    /\ write_upload env f name w2 = (Ok tt, w3).

Definition transcribed (f : UploadFile) (model_size : string) (w : world)
           (name : string) (result : list (string * pyval)) (w4 : world)
  : Prop :=
  exists model w3,
    persisted f model_size w model name w3
    /\ transcribe env model name w3 = (Ok result, w4).

(** An exception [e] raised while the model is acquired, while the
    scratch file is made and written, or by [transcribe]. *)
Inductive internal_failure (f : UploadFile) (model_size : string)
          (w : world) (e : exn) : Prop :=
| acquisition_fails w1 :
    get_model env model_size w = (Raise e, w1) ->
    internal_failure f model_size w e
| creation_fails model w1 w2 :
    get_model env model_size w = (Ok model, w1) ->
    named_temporary_file env (upload_ext f) w1 = (Raise e, w2) ->
    internal_failure f model_size w e
| writing_fails model name w2 w3 :
    created f model_size w model name w2 ->
    write_upload env f name w2 = (Raise e, w3) ->
    internal_failure f model_size w e
| transcription_fails model name w3 w4 :
    persisted f model_size w model name w3 ->
    transcribe env model name w3 = (Raise e, w4) ->
    internal_failure f model_size w e.

(** What a run of the loop from attempt number [attempt] does, in terms
    of the number [k] of attempts it makes. *)
Definition loop_outcome (ms : string) (todo : nat) (attempt : Z) (w : world)
           (k : nat) (r : outcome (option model_obj)) (w' : world) : Prop :=
  models w' = models w
  /\ fs w' = fs w
  /\ trace w' = trace w ++ attempts_trace ms attempt k
  /\ (forall i, (S i < k)%nat ->
        exists e, whisper_load_model env
                    (trace w ++ backoff_trace ms attempt i) ms = Raise e)
  /\ match r with
     | Ok (Some model) =>
         exists j, k = S j
           /\ whisper_load_model env
                (trace w ++ backoff_trace ms attempt j) ms = Ok model
     | Ok None => k = O /\ todo = O
     | Raise e =>
         exists j, k = S j /\ k = todo
           /\ whisper_load_model env
                (trace w ++ backoff_trace ms attempt j) ms = Raise e
     | Unwind b =>
         exists j, k = S j
           /\ whisper_load_model env
                (trace w ++ backoff_trace ms attempt j) ms = Unwind b
     end.

(** What the process does next: any call of the handler for any
    identifier (the routes among them), of [get_model], or of the status
    route. *)
Inductive step (w : world) : world -> Prop :=
| step_process_audio file model_size :
    step w (snd (process_audio env file model_size w))
| step_get_model model_size :
    step w (snd (get_model env model_size w))
| step_root :
    step w (snd (root w)).

Definition later : world -> world -> Prop := rtc step.

End Stages.

(** A call left by what does not derive from [Exception]. *)
Definition unwound {A} (r : outcome A) : bool :=
  match r with
  | Unwind _ => true
  | _ => false
  end.

(** What [respond] yields, whatever the state. *)
Definition response_of (result : list (string * pyval)) : outcome JSONResponse :=
  fst (respond result tt).

(** ** Sample environments *)

Definition sample_result : list (string * pyval) :=
  [("text", PyStr " Hello world.");
   ("segments",
    PyList [PyDict [("id", PyInt 0); ("start", PyFloat (S754_zero false));
                    ("end", PyFloat (S754_finite false 5 (-1)));
                    ("text", PyStr " Hello world.")]]);
   ("language", PyStr "en")].

(** A result with a segment whose [avg_logprob] is NaN. *)
Definition nan_result : list (string * pyval) :=
  [("text", PyStr "");
   ("segments",
    PyList [PyDict [("id", PyInt 0); ("start", PyFloat (S754_zero false));
                    ("end", PyFloat (S754_finite false 5 (-1)));
                    ("text", PyStr "");
                    ("avg_logprob", PyFloat S754_nan)]]);
   ("language", PyStr "en")].

(** The loader answers its calls from [loads] in turn, [transcribe] answers
    [transcription], and the file operations succeed. *)
Definition scripted (loads : list (outcome model_obj))
           (transcription : outcome (list (string * pyval))) : environment :=
  {| whisper_load_model := fun h _ =>
       nth (count_loads h) loads (Raise (PyError "RuntimeError" "out of memory"));
     NamedTemporaryFile := fun _ suffix => Ok ("/tmp/tmpk3x9q2l_" ++ suffix)%string;
     upload_read := fun _ f => Ok (payload f);
     temp_write := fun _ _ _ => Ok tt;
     temp_flush := fun _ _ => Ok tt;
     whisper_transcribe := fun _ _ _ => transcription;
     set_iteration := fun s => s |}.

Definition load_error (n : nat) : exn :=
  PyError "RuntimeError" ("download failed, try " ++ pretty n).

Definition speech : UploadFile := {| filename := "speech.MP3"; payload := [] |}.

Definition notes : UploadFile := {| filename := "notes.txt"; payload := [] |}.

(** One model loads at the first attempt; [transcribe] answers as given. *)
Definition env_returning (transcription : outcome (list (string * pyval)))
  : environment :=
  scripted [Ok 7%nat] transcription.

Definition env_ok : environment := env_returning (Ok sample_result).

Definition env_nan : environment := env_returning (Ok nan_result).

Definition cuda_error : exn := PyError "RuntimeError" "CUDA out of memory".

Definition env_transcribe_fails : environment := env_returning (Raise cuda_error).

(** The loader fails once, then succeeds; and fails three times. *)
Definition env_second_try : environment :=
  scripted [Raise (load_error 1); Ok 7%nat] (Ok sample_result).

Definition env_never_loads : environment :=
  scripted [Raise (load_error 1); Raise (load_error 2); Raise (load_error 3)]
           (Ok sample_result).

(** The request is cancelled while it awaits [file.read()]: the
    [CancelledError] is thrown into the coroutine there. *)
Definition env_cancelled : environment :=
  {| whisper_load_model := whisper_load_model env_ok;
     NamedTemporaryFile := NamedTemporaryFile env_ok;
     upload_read := fun _ _ => Unwind CancelledError;
     temp_write := temp_write env_ok;
     temp_flush := temp_flush env_ok;
     whisper_transcribe := whisper_transcribe env_ok;
     set_iteration := set_iteration env_ok |}.

(** The worlds a first request for [speech] on the fast route goes through
    in these environments. *)
Definition w0 : world := initial_world ∅.

Definition scratch : string := "/tmp/tmpk3x9q2l_.mp3".

Definition base_loaded : list (string * option model_obj) :=
  [("base", Some 7%nat); ("large", None)].

Definition after_load : world := World base_loaded ∅ [LoadModel "base"].

Definition after_create : world :=
  World base_loaded {[ scratch ]} [LoadModel "base"; Create scratch].

Definition after_write : world :=
  World base_loaded {[ scratch ]}
        [LoadModel "base"; Create scratch; ReadUpload; WriteFile scratch [];
         Flush scratch].

Definition after_transcribe : world :=
  World base_loaded {[ scratch ]}
        [LoadModel "base"; Create scratch; ReadUpload; WriteFile scratch [];
         Flush scratch; Transcribe 7%nat scratch].

(** ** Vocabulary of the further properties *)

(** The events of the loader: its calls and the waits between them. *)
Definition is_loader_event (ev : event) : bool :=
  match ev with
  | LoadModel _ | Sleep _ => true
  | _ => false
  end.

Definition loader_events (evs : list event) : list event :=
  List.filter is_loader_event evs.

(** The seconds spent in [time.sleep]. *)
Fixpoint total_sleep (evs : list event) : Z :=
  match evs with
  | [] => 0
  | Sleep seconds :: evs' => seconds + total_sleep evs'
  | _ :: evs' => total_sleep evs'
  end.

(** [c in s] for a character and a string. *)
Fixpoint has_char (c : ascii) (s : string) : bool :=
  match s with
  | EmptyString => false
  | String a s' => Ascii.eqb a c || has_char c s'
  end.

(** A string of dots only, the empty one included. *)
Fixpoint all_dots (s : string) : bool :=
  match s with
  | EmptyString => true
  | String a s' => Ascii.eqb a "." && all_dots s'
  end.

(** The same upload under another file name. *)
Definition renamed (f : UploadFile) (name : string) : UploadFile :=
  {| filename := name; payload := payload f |}.

(** * Proofs *)

(** ** Dictionaries *)

Lemma dict_get_set_eq {V} (k : string) (v : V) d :
  Dict.get k (Dict.set k v d) = Some v.
Proof.
  induction d as [|[k' v'] d IH]; simpl.
  - by rewrite String.eqb_refl.
  - destruct (String.eqb k k') eqn:E; simpl; rewrite E; [ done | exact IH ].
Qed.

Lemma dict_get_set_ne {V} (k k0 : string) (v : V) d :
  k0 <> k -> Dict.get k0 (Dict.set k v d) = Dict.get k0 d.
Proof.
  intros Hne. induction d as [|[k' v'] d IH]; simpl.
  - destruct (String.eqb k0 k) eqn:E; [ | done ].
    apply String.eqb_eq in E. contradiction.
  - destruct (String.eqb k k') eqn:E; simpl.
    + apply String.eqb_eq in E. subst k'.
      apply String.eqb_neq in Hne. by rewrite Hne.
    + by rewrite IH.
Qed.

Lemma dict_keys_set {V} (k : string) (v : V) d :
  Dict.mem k d = true -> Dict.keys (Dict.set k v d) = Dict.keys d.
Proof.
  unfold Dict.mem, Dict.keys.
  induction d as [|[k' v'] d IH]; simpl; [ done | ].
  destruct (String.eqb k k') eqn:E; simpl; [ done | ].
  intros H. by rewrite IH.
Qed.

Lemma dict_mem_keys {V} (k : string) (d : list (string * V)) :
  Dict.mem k d = true <-> In k (Dict.keys d).
Proof.
  unfold Dict.mem, Dict.keys.
  induction d as [|[k' v'] d IH]; simpl; [ split; [ done | tauto ] | ].
  destruct (String.eqb k k') eqn:E.
  - apply String.eqb_eq in E. subst. split; auto.
  - apply String.eqb_neq in E. rewrite IH. split; [ auto | ].
    intros [H|H]; [ congruence | done ].
Qed.

(** ** The retry loop *)

Section Loader.

Variable env : environment.

Lemma external_run {A} (ev : event) (answer : list event -> outcome A) w :
  external ev answer w
  = (answer (trace w), World (models w) (fs w) (trace w ++ [ev])).
Proof. reflexivity. Qed.

Lemma backoff_trace_snoc ms attempt n :
  backoff_trace ms attempt (S n)
  = backoff_trace ms attempt n
      ++ [LoadModel ms; Sleep (2 ^ (attempt + Z.of_nat n))].
Proof.
  revert attempt. induction n as [|n IH]; intros attempt.
  - simpl. by rewrite Z.add_0_r.
  - change (backoff_trace ms attempt (S (S n)))
      with (LoadModel ms :: Sleep (2 ^ attempt)
              :: backoff_trace ms (attempt + 1) (S n)).
    rewrite IH. simpl.
    replace (attempt + 1 + Z.of_nat n) with (attempt + Z.of_nat (S n)) by lia.
    reflexivity.
Qed.

Lemma count_loads_app evs1 evs2 :
  count_loads (evs1 ++ evs2) = (count_loads evs1 + count_loads evs2)%nat.
Proof. unfold count_loads. by rewrite List.filter_app, List.length_app. Qed.

Lemma count_loads_backoff ms attempt n :
  count_loads (backoff_trace ms attempt n) = n.
Proof.
  revert attempt. induction n as [|n IH]; intros attempt; [ done | ].
  simpl. unfold count_loads in *. simpl. by rewrite IH.
Qed.

(** [k] attempts are [k] calls of the loader. *)
Lemma count_loads_attempts ms attempt k :
  count_loads (attempts_trace ms attempt k) = k.
Proof.
  destruct k as [|j]; [ done | ].
  unfold attempts_trace. rewrite count_loads_app, count_loads_backoff.
  unfold count_loads. simpl. lia.
Qed.

Lemma retry_loop_outcome ms max_retries todo :
  forall attempt w,
    attempt + Z.of_nat todo = max_retries \/ todo = O ->
    exists k, (k <= todo)%nat
      /\ loop_outcome env ms todo attempt w k
           (fst (retry_loop env ms max_retries todo attempt w))
           (snd (retry_loop env ms max_retries todo attempt w)).
Proof.
  induction todo as [|todo IH]; intros attempt w Hinv.
  - exists O. split; [ lia | ]. unfold loop_outcome. simpl.
    rewrite app_nil_r. repeat split; auto. intros i Hi. lia.
  - destruct Hinv as [Hinv|Hinv]; [ | discriminate ].
    simpl. unfold try_except, bind. rewrite external_run.
    destruct (whisper_load_model env (trace w) ms) as [model|e|b] eqn:Hload.
    3: { exists 1%nat. split; [ lia | ]. unfold loop_outcome. simpl.
         repeat split; auto.
         - intros i Hi. lia.
         - exists O. simpl. rewrite app_nil_r. auto. }
    + exists 1%nat. split; [ lia | ]. unfold loop_outcome. simpl.
      repeat split; auto.
      * intros i Hi. lia.
      * exists O. simpl. rewrite app_nil_r. auto.
    + destruct (attempt <? max_retries - 1) eqn:Hlast.
      * apply Z.ltb_lt in Hlast.
        unfold record, modify. simpl.
        set (w1 := World (models w) (fs w)
                     ((trace w ++ [LoadModel ms]) ++ [Sleep (2 ^ attempt)])).
        destruct (IH (attempt + 1) w1) as (k & Hk & Hm & Hf & Ht & Hprev & Hres);
          [ left; lia | ].
        destruct (retry_loop env ms max_retries todo (attempt + 1) w1)
          as [r w'] eqn:Hrun.
        simpl in *.
        assert (exists j, k = S j) as [j ->].
        { destruct r as [[model|]|e'|b].
          - destruct Hres as (j & -> & _). eauto.
          - destruct Hres as [_ ->]. lia.
          - destruct Hres as (j & -> & _). eauto.
          - destruct Hres as (j & -> & _). eauto. }
        exists (S (S j)). split; [ lia | ].
        unfold loop_outcome. simpl.
        split; [ done | ]. split; [ done | ].
        split; [ rewrite Ht; simpl; by rewrite <- !app_assoc | ].
        split.
        { intros [|i] Hi.
          - exists e. simpl. by rewrite app_nil_r.
          - destruct (Hprev i) as [e' He']; [ lia | ].
            exists e'. simpl. rewrite <- He'. f_equal.
            by rewrite <- !app_assoc. }
        destruct r as [[model|]|e'|b].
        -- destruct Hres as (j' & Hj' & Hok). injection Hj' as <-.
           exists (S j). split; [ done | ].
           rewrite <- Hok. f_equal. simpl. by rewrite <- !app_assoc.
        -- destruct Hres as [Hres _]. discriminate.
        -- destruct Hres as (j' & Hj' & Htodo & Herr). injection Hj' as <-.
           exists (S j). split; [ done | ]. split; [ lia | ].
           rewrite <- Herr. f_equal. simpl. by rewrite <- !app_assoc.
        -- destruct Hres as (j' & Hj' & Hun). injection Hj' as <-.
           exists (S j). split; [ done | ].
           rewrite <- Hun. f_equal. simpl. by rewrite <- !app_assoc.
      * apply Z.ltb_ge in Hlast.
        exists 1%nat. split; [ lia | ]. unfold loop_outcome. simpl.
        split; [ done | ]. split; [ done | ]. split; [ done | ].
        split; [ intros i Hi; lia | ].
        exists O. simpl. rewrite app_nil_r.
        split; [ done | ]. split; [ lia | done ].
Qed.

End Loader.

Section Registry.

Variable env : environment.

Lemma attempts_trace_wait ms k i :
  (S i < k)%nat ->
  attempts_trace ms 0 k !! (2 * i)%nat = Some (LoadModel ms)
  /\ attempts_trace ms 0 k !! (2 * i + 1)%nat = Some (Sleep (2 ^ Z.of_nat i)).
Proof.
  destruct k as [|j]; [ lia | ]. intros Hi.
  assert (Hgen : forall n a,
             (i < n)%nat ->
             backoff_trace ms a n !! (i + i)%nat = Some (LoadModel ms)
             /\ backoff_trace ms a n !! S (i + i)
                = Some (Sleep (2 ^ (a + Z.of_nat i)))).
  { clear. revert i. induction i as [|i IH]; intros n a Hn.
    - destruct n as [|n]; [ lia | ]. simpl. by rewrite Z.add_0_r.
    - destruct n as [|n]; [ lia | ].
      destruct (IH n (a + 1)) as [H1 H2]; [ lia | ].
      replace (S i + S i)%nat with (S (S (i + i))) by lia.
      change (backoff_trace ms a (S n))
        with (LoadModel ms :: Sleep (2 ^ a) :: backoff_trace ms (a + 1) n).
      split; [ exact H1 | ].
      change ((LoadModel ms :: Sleep (2 ^ a) :: backoff_trace ms (a + 1) n)
                !! S (S (S (i + i))))
        with (backoff_trace ms (a + 1) n !! S (i + i)).
      rewrite H2. do 3 f_equal. lia. }
  replace (2 * i)%nat with (i + i)%nat by lia.
  replace (i + i + 1)%nat with (S (i + i)) by lia.
  destruct (Hgen j 0) as [H1 H2]; [ lia | ].
  unfold attempts_trace. split.
  - by apply lookup_app_l_Some.
  - by apply lookup_app_l_Some.
Qed.

Lemma load_model_with_retry_outcome ms max_retries w :
  exists k, (k <= Z.to_nat max_retries)%nat
    /\ loop_outcome env ms (Z.to_nat max_retries) 0 w k
         (fst (load_model_with_retry env ms max_retries w))
         (snd (load_model_with_retry env ms max_retries w)).
Proof.
  unfold load_model_with_retry. apply retry_loop_outcome.
  destruct (Z.le_gt_cases 0 max_retries); [ left | right ]; lia.
Qed.

(** The three cases of [get_model]. *)
Lemma get_model_loaded ms model w :
  Dict.get ms (models w) = Some (Some model) ->
  get_model env ms w = (Ok (Some model), w).
Proof.
  intros H. unfold get_model, models_getitem, bind, gets, ret.
  rewrite H. simpl. by rewrite H.
Qed.

Lemma get_model_missing ms w :
  Dict.get ms (models w) = None ->
  get_model env ms w = (Raise (PyError "KeyError" (Repr.repr ms)), w).
Proof.
  intros H. unfold get_model, models_getitem, bind, gets, ret.
  by rewrite H.
Qed.

Lemma get_model_cold ms w :
  Dict.get ms (models w) = Some None ->
  get_model env ms w
  = match load_model_with_retry env ms 3 w with
    | (Ok loaded, w1) =>
        (Ok loaded, World (Dict.set ms loaded (models w1)) (fs w1) (trace w1))
    | (Raise e, w1) => (Raise e, w1)
    | (Unwind b, w1) => (Unwind b, w1)
    end.
Proof.
  intros H. unfold get_model, models_getitem, bind, gets, ret.
  rewrite H. simpl.
  destruct (load_model_with_retry env ms 3 w) as [[loaded|e|b] w1];
    [ | done | done ].
  unfold models_setitem, modify. simpl. by rewrite dict_get_set_eq.
Qed.

(** [get_model] leaves the files alone and writes at most the entry of
    its identifier, and only when that entry was unset. *)
Lemma get_model_frame ms w :
  fs (snd (get_model env ms w)) = fs w
  /\ (models (snd (get_model env ms w)) = models w
      \/ Dict.get ms (models w) = Some None
         /\ exists loaded,
             models (snd (get_model env ms w)) = Dict.set ms loaded (models w)).
Proof.
  destruct (Dict.get ms (models w)) as [[model|]|] eqn:Hentry.
  - rewrite (get_model_loaded _ _ _ Hentry). auto.
  - rewrite (get_model_cold _ _ Hentry).
    destruct (load_model_with_retry_outcome ms 3 w)
      as (k & _ & Hm & Hf & _).
    destruct (load_model_with_retry env ms 3 w) as [[loaded|e|b] w1];
      simpl in *.
    + split; [ done | ]. right. split; [ done | ]. exists loaded.
      by rewrite Hm.
    + auto.
    + auto.
  - rewrite (get_model_missing _ _ Hentry). auto.
Qed.

Lemma get_model_keeps_keys ms w :
  Dict.keys (models (snd (get_model env ms w))) = Dict.keys (models w).
Proof.
  destruct (get_model_frame ms w) as [_ [->|[Hentry [loaded ->]]]]; [ done | ].
  apply dict_keys_set. unfold Dict.mem. by rewrite Hentry.
Qed.

Lemma get_model_keeps_loaded ms w k model :
  Dict.get k (models w) = Some (Some model) ->
  Dict.get k (models (snd (get_model env ms w))) = Some (Some model).
Proof.
  intros Hk.
  destruct (get_model_frame ms w) as [_ [->|[Hentry [loaded ->]]]]; [ done | ].
  rewrite dict_get_set_ne; [ done | ]. congruence.
Qed.

(** With three attempts to make, [get_model] never hands out [None]. *)
Lemma get_model_returns_model ms w h :
  fst (get_model env ms w) = Ok h ->
  exists model,
    h = Some model
    /\ Dict.get ms (models (snd (get_model env ms w))) = Some (Some model).
Proof.
  destruct (Dict.get ms (models w)) as [[model|]|] eqn:Hentry.
  - rewrite (get_model_loaded _ _ _ Hentry). simpl.
    intros [= <-]. eauto.
  - rewrite (get_model_cold _ _ Hentry).
    destruct (load_model_with_retry_outcome ms 3 w)
      as (k & _ & _ & _ & _ & _ & Hres).
    destruct (load_model_with_retry env ms 3 w) as [[[model|]|e|b] w1];
      simpl in *.
    + intros [= <-]. exists model. by rewrite dict_get_set_eq.
    + destruct Hres as [_ Hres]. discriminate.
    + discriminate.
    + discriminate.
  - rewrite (get_model_missing _ _ Hentry). discriminate.
Qed.

End Registry.

(** ** The handler *)

Section Handler.

Variable env : environment.

Lemma respond_pure {S} (result : list (string * pyval)) (s : S) :
  respond result s = (response_of result, s).
Proof.
  unfold response_of, respond, getitem, new_JSONResponse, bind, ret, raise.
  destruct (Dict.get "text" result); [ | done ].
  destruct (Dict.get "segments" result); [ | done ].
  by destruct (json_error _).
Qed.

Lemma named_temporary_file_ok suffix w name w2 :
  named_temporary_file env suffix w = (Ok name, w2) ->
  w2 = World (models w) ({[ name ]} ∪ fs w) (trace w ++ [Create name]).
Proof.
  unfold named_temporary_file, bind, gets, modify, ret, raise, unwind. simpl.
  destruct (NamedTemporaryFile env (trace w) suffix); [ | done | done ].
  by intros [= <- <-].
Qed.

Lemma named_temporary_file_raise suffix w e w2 :
  named_temporary_file env suffix w = (Raise e, w2) -> w2 = w.
Proof.
  unfold named_temporary_file, bind, gets, modify, ret, raise, unwind. simpl.
  destruct (NamedTemporaryFile env (trace w) suffix); [ done | | done ].
  by intros [= _ <-].
Qed.

Lemma named_temporary_file_unwind suffix w b w2 :
  named_temporary_file env suffix w = (Unwind b, w2) -> w2 = w.
Proof.
  unfold named_temporary_file, bind, gets, modify, ret, raise, unwind. simpl.
  destruct (NamedTemporaryFile env (trace w) suffix); [ done | done | ].
  by intros [= _ <-].
Qed.

Lemma write_upload_frame f name w :
  models (snd (write_upload env f name w)) = models w
  /\ fs (snd (write_upload env f name w)) = fs w.
Proof.
  unfold write_upload, bind. rewrite external_run.
  destruct (upload_read env (trace w) f); [ | done | done ].
  rewrite external_run.
  destruct (temp_write _ _ _ _); [ | done | done ].
  by rewrite external_run.
Qed.

Lemma transcribe_frame model name w :
  models (snd (transcribe env model name w)) = models w
  /\ fs (snd (transcribe env model name w)) = fs w.
Proof.
  unfold transcribe. destruct model; [ | done ]. by rewrite external_run.
Qed.

Lemma os_unlink_present name w :
  name ∈ fs w ->
  os_unlink name w
  = (Ok tt, World (models w) (fs w ∖ {[ name ]}) (trace w ++ [Unlink name])).
Proof.
  intros H. unfold os_unlink, bind, record, modify, gets. simpl.
  by rewrite decide_True.
Qed.

Lemma os_unlink_absent name w :
  name ∉ fs w ->
  os_unlink name w
  = (Raise (PyError "FileNotFoundError"
              ("[Errno 2] No such file or directory: " ++ Repr.repr name)),
     World (models w) (fs w) (trace w ++ [Unlink name])).
Proof.
  intros H. unfold os_unlink, bind, record, modify, gets. simpl.
  by rewrite decide_False.
Qed.

(** The checks before the [try] block. *)
Lemma process_audio_valid w f ms :
  valid_request w (Some f) ms = true ->
  process_audio env (Some f) ms w
  = in_frame (try_except (try_block env f (upload_ext f) ms) except_block) w.
Proof.
  unfold valid_request, process_audio, bind, gets.
  intros [H1 H2]%andb_prop. by rewrite H1, H2.
Qed.

Lemma process_audio_invalid w file ms :
  valid_request w file ms = false ->
  exists detail,
    process_audio env file ms w = (Raise (HTTPException 400 detail), w).
Proof.
  unfold valid_request, process_audio, bind, gets, raise.
  destruct (Dict.mem ms (models w)); simpl; [ | eauto ].
  destruct file as [f|]; [ | eauto ].
  intros ->. simpl. eauto.
Qed.

Ltac run_handler :=
  cbv [in_frame try_except try_block bind lift with_exit modify
       except_block gets ret raise record temp_file].

(** An exception while the model is acquired. *)
Lemma run_acquisition_fails w f ms e w1 :
  valid_request w (Some f) ms = true ->
  get_model env ms w = (Raise e, w1) ->
  process_audio env (Some f) ms w
  = (Raise (HTTPException 500 (str_exn e)), w1).
Proof.
  intros Hvalid Hget. rewrite (process_audio_valid _ _ _ Hvalid).
  run_handler. by rewrite Hget.
Qed.

(** An exception of [NamedTemporaryFile]: [temp_file] is not bound. *)
Lemma run_creation_fails w f ms model w1 e w2 :
  valid_request w (Some f) ms = true ->
  get_model env ms w = (Ok model, w1) ->
  named_temporary_file env (upload_ext f) w1 = (Raise e, w2) ->
  process_audio env (Some f) ms w
  = (Raise (HTTPException 500 (str_exn e)), w2).
Proof.
  intros Hvalid Hget Hnew. rewrite (process_audio_valid _ _ _ Hvalid).
  run_handler. rewrite Hget. by rewrite Hnew.
Qed.


Lemma created_exists f ms w model name w2 :
  created env f ms w model name w2 -> name ∈ fs w2.
Proof.
  intros (w1 & _ & Hnew). apply named_temporary_file_ok in Hnew as ->.
  simpl. set_solver.
Qed.

Lemma persisted_exists f ms w model name w3 :
  persisted env f ms w model name w3 -> name ∈ fs w3.
Proof.
  intros (w2 & Hcreated & Hwrite).
  destruct (write_upload_frame f name w2) as [_ Hfs].
  rewrite Hwrite in Hfs. simpl in Hfs. rewrite Hfs.
  by eapply created_exists.
Qed.

(** An exception while the upload is written: the file is closed, then
    unlinked by the handler. *)
Lemma run_writing_fails w f ms model name w2 e w3 :
  valid_request w (Some f) ms = true ->
  created env f ms w model name w2 ->
  write_upload env f name w2 = (Raise e, w3) ->
  process_audio env (Some f) ms w
  = (Raise (HTTPException 500 (str_exn e)),
     World (models w3) (fs w3 ∖ {[ name ]})
           (trace w3 ++ [Close name; Unlink name])).
Proof.
  intros Hvalid Hcreated Hwrite.
  assert (Hin : name ∈ fs w3).
  { destruct (write_upload_frame f name w2) as [_ Hfs].
    rewrite Hwrite in Hfs. simpl in Hfs. rewrite Hfs.
    by eapply created_exists. }
  destruct Hcreated as (w1 & Hget & Hnew).
  rewrite (process_audio_valid _ _ _ Hvalid).
  run_handler. rewrite Hget, Hnew, Hwrite.
  rewrite os_unlink_present by done. simpl.
  by rewrite <- app_assoc.
Qed.

(** An exception of [transcribe]: the same way out. *)
Lemma run_transcription_fails w f ms model name w3 e w4 :
  valid_request w (Some f) ms = true ->
  persisted env f ms w model name w3 ->
  transcribe env model name w3 = (Raise e, w4) ->
  process_audio env (Some f) ms w
  = (Raise (HTTPException 500 (str_exn e)),
     World (models w4) (fs w4 ∖ {[ name ]})
           (trace w4 ++ [Close name; Unlink name])).
Proof.
  intros Hvalid Hpersisted Htranscribe.
  assert (Hin : name ∈ fs w4).
  { destruct (transcribe_frame model name w3) as [_ Hfs].
    rewrite Htranscribe in Hfs. simpl in Hfs. rewrite Hfs.
    by eapply persisted_exists. }
  destruct Hpersisted as (w2 & (w1 & Hget & Hnew) & Hwrite).
  rewrite (process_audio_valid _ _ _ Hvalid).
  run_handler. rewrite Hget, Hnew, Hwrite, Htranscribe.
  rewrite os_unlink_present by done. simpl.
  by rewrite <- app_assoc.
Qed.

(** After [transcribe] returned: the file is unlinked, the response is
    built, the file is closed.  When building the response raises, the
    handler unlinks the missing file, and the [FileNotFoundError] of that
    call is what leaves [process_audio]. *)
Lemma run_transcribed w f ms name result w4 :
  valid_request w (Some f) ms = true ->
  transcribed env f ms w name result w4 ->
  process_audio env (Some f) ms w
  = match response_of result with
    | Ok response =>
        (Ok response,
         World (models w4) (fs w4 ∖ {[ name ]})
               (trace w4 ++ [Unlink name; Close name]))
    | Raise _ =>
        (Raise (PyError "FileNotFoundError"
                  ("[Errno 2] No such file or directory: " ++ Repr.repr name)),
         World (models w4) (fs w4 ∖ {[ name ]})
               (trace w4 ++ [Unlink name; Close name; Unlink name]))
    | Unwind b =>
        (Unwind b,
         World (models w4) (fs w4 ∖ {[ name ]})
               (trace w4 ++ [Unlink name; Close name]))
    end.
Proof.
  intros Hvalid (model & w3 & Hpersisted & Htranscribe).
  assert (Hin : name ∈ fs w4).
  { destruct (transcribe_frame model name w3) as [_ Hfs].
    rewrite Htranscribe in Hfs. simpl in Hfs. rewrite Hfs.
    by eapply persisted_exists. }
  destruct Hpersisted as (w2 & (w1 & Hget & Hnew) & Hwrite).
  rewrite (process_audio_valid _ _ _ Hvalid).
  run_handler. rewrite Hget, Hnew, Hwrite, Htranscribe.
  rewrite os_unlink_present by done.
  rewrite respond_pure.
  destruct (response_of result) as [response|e|b].
  - simpl. by rewrite <- app_assoc.
  - rewrite os_unlink_absent;
      [ | simpl; intros [_ Hn]%elem_of_difference;
          apply Hn; by apply elem_of_singleton ].
    simpl. by rewrite <- !app_assoc.
  - simpl. by rewrite <- app_assoc.
Qed.

(** Building the response returns or raises, nothing else. *)
Lemma response_of_not_unwind result b : response_of result <> Unwind b.
Proof.
  unfold response_of, respond, getitem, new_JSONResponse, bind, ret, raise.
  destruct (Dict.get "text" result); [ | done ].
  destruct (Dict.get "segments" result); [ | done ].
  by destruct (json_error _).
Qed.

(** What does not derive from [Exception] passes the handler: the request
    is left as it is, the scratch file, when there is one, closed and not
    unlinked. *)
Lemma run_acquisition_unwinds w f ms b w1 :
  valid_request w (Some f) ms = true ->
  get_model env ms w = (Unwind b, w1) ->
  process_audio env (Some f) ms w = (Unwind b, w1).
Proof.
  intros Hvalid Hget. rewrite (process_audio_valid _ _ _ Hvalid).
  run_handler. by rewrite Hget.
Qed.

Lemma run_creation_unwinds w f ms model w1 b w2 :
  valid_request w (Some f) ms = true ->
  get_model env ms w = (Ok model, w1) ->
  named_temporary_file env (upload_ext f) w1 = (Unwind b, w2) ->
  process_audio env (Some f) ms w = (Unwind b, w2).
Proof.
  intros Hvalid Hget Hnew. rewrite (process_audio_valid _ _ _ Hvalid).
  run_handler. rewrite Hget. by rewrite Hnew.
Qed.

Lemma run_writing_unwinds w f ms model name w2 b w3 :
  valid_request w (Some f) ms = true ->
  created env f ms w model name w2 ->
  write_upload env f name w2 = (Unwind b, w3) ->
  process_audio env (Some f) ms w
  = (Unwind b, World (models w3) (fs w3) (trace w3 ++ [Close name])).
Proof.
  intros Hvalid (w1 & Hget & Hnew) Hwrite.
  rewrite (process_audio_valid _ _ _ Hvalid).
  run_handler. by rewrite Hget, Hnew, Hwrite.
Qed.

Lemma run_transcription_unwinds w f ms model name w3 b w4 :
  valid_request w (Some f) ms = true ->
  persisted env f ms w model name w3 ->
  transcribe env model name w3 = (Unwind b, w4) ->
  process_audio env (Some f) ms w
  = (Unwind b, World (models w4) (fs w4) (trace w4 ++ [Close name])).
Proof.
  intros Hvalid (w2 & (w1 & Hget & Hnew) & Hwrite) Hrun.
  rewrite (process_audio_valid _ _ _ Hvalid).
  run_handler. by rewrite Hget, Hnew, Hwrite, Hrun.
Qed.

(** The registry after a request is the one [get_model] left, or the
    one before. *)
Lemma process_audio_models file ms w :
  models (snd (process_audio env file ms w)) = models (snd (get_model env ms w))
  \/ models (snd (process_audio env file ms w)) = models w.
Proof.
  destruct (valid_request w file ms) eqn:Hvalid.
  - destruct file as [f|];
      [ | unfold valid_request in Hvalid;
          by rewrite andb_false_r in Hvalid ].
    left.
    destruct (get_model env ms w) as [[model|e|b] w1] eqn:Hget;
      [ | by rewrite (run_acquisition_fails _ _ _ _ _ Hvalid Hget)
        | by rewrite (run_acquisition_unwinds _ _ _ _ _ Hvalid Hget) ].
    destruct (named_temporary_file env (upload_ext f) w1)
      as [[name|e|b] w2] eqn:Hnew.
    2: { rewrite (run_creation_fails _ _ _ _ _ _ _ Hvalid Hget Hnew).
         by apply named_temporary_file_raise in Hnew as ->. }
    2: { rewrite (run_creation_unwinds _ _ _ _ _ _ _ Hvalid Hget Hnew).
         by apply named_temporary_file_unwind in Hnew as ->. }
    assert (Hcreated : created env f ms w model name w2) by (exists w1; auto).
    assert (Hm2 : models w2 = models w1)
      by (by apply named_temporary_file_ok in Hnew as ->).
    destruct (write_upload_frame f name w2) as [Hm3 _].
    destruct (write_upload env f name w2) as [[[]|e|b] w3] eqn:Hwrite;
      simpl in Hm3.
    2: { rewrite (run_writing_fails _ _ _ _ _ _ _ _ Hvalid Hcreated Hwrite).
         simpl. congruence. }
    2: { rewrite (run_writing_unwinds _ _ _ _ _ _ _ _ Hvalid Hcreated Hwrite).
         simpl. congruence. }
    assert (Hpersisted : persisted env f ms w model name w3)
      by (exists w2; auto).
    destruct (transcribe_frame model name w3) as [Hm4 _].
    destruct (transcribe env model name w3) as [[result|e|b] w4] eqn:Hrun;
      simpl in Hm4.
    2: { rewrite (run_transcription_fails _ _ _ _ _ _ _ _
                    Hvalid Hpersisted Hrun).
         simpl. congruence. }
    2: { rewrite (run_transcription_unwinds _ _ _ _ _ _ _ _
                    Hvalid Hpersisted Hrun).
         simpl. congruence. }
    assert (Hdone : transcribed env f ms w name result w4)
      by (exists model, w3; auto).
    rewrite (run_transcribed _ _ _ _ _ _ Hvalid Hdone).
    destruct (response_of result); simpl; congruence.
  - destruct (process_audio_invalid _ _ _ Hvalid) as [detail ->]. by right.
Qed.

Lemma step_keeps_keys w w' :
  step env w w' -> Dict.keys (models w') = Dict.keys (models w).
Proof.
  intros [file ms|ms|].
  - destruct (process_audio_models file ms w) as [-> | ->]; [ | done ].
    apply get_model_keeps_keys.
  - apply get_model_keeps_keys.
  - done.
Qed.

Lemma step_keeps_loaded w w' k model :
  step env w w' ->
  Dict.get k (models w) = Some (Some model) ->
  Dict.get k (models w') = Some (Some model).
Proof.
  intros [file ms|ms|] Hk.
  - destruct (process_audio_models file ms w) as [-> | ->]; [ | done ].
    by apply get_model_keeps_loaded.
  - by apply get_model_keeps_loaded.
  - done.
Qed.

Lemma later_keeps_keys w w' :
  later env w w' -> Dict.keys (models w') = Dict.keys (models w).
Proof.
  induction 1 as [|w w1 w2 Hstep _ IH]; [ done | ].
  rewrite IH. by apply step_keeps_keys.
Qed.

Lemma later_keeps_loaded w w' k model :
  later env w w' ->
  Dict.get k (models w) = Some (Some model) ->
  Dict.get k (models w') = Some (Some model).
Proof.
  induction 1 as [|w w1 w2 Hstep _ IH]; [ done | ].
  intros Hk. apply IH. by eapply step_keeps_loaded.
Qed.

End Handler.

(** * The claims *)

(** C3. [load_model_with_retry] makes some number [k] of load attempts,
    never more than [max_retries].  Its events are exactly those [k] calls
    of the loader with, after attempt number [i] that is not the last one
    made, a wait of [2 ^ i] seconds.  Every attempt before the last one made
    failed.  A model is returned exactly when the last attempt made
    succeeded, and it is that attempt's model; an exception leaves the
    function only when all [max_retries] attempts were made, and it is the
    one of the last attempt.  Nothing is attempted, and [None] returned,
    only when [max_retries] is not positive.  (An attempt left by what is
    no [Exception], such as a [KeyboardInterrupt], is the last one made,
    and that leaves the function too.) *)
Theorem load_model_with_retry_backoff
        (env : environment) (model_size : string) (max_retries : Z) (w : world) :
  exists k : nat,
    (k <= Z.to_nat max_retries)%nat
    /\ trace (snd (load_model_with_retry env model_size max_retries w))
       = trace w ++ attempts_trace model_size 0 k
    /\ count_loads (attempts_trace model_size 0 k) = k
    /\ (forall i, (S i < k)%nat ->
          attempts_trace model_size 0 k !! (2 * i)%nat
          = Some (LoadModel model_size)
          /\ attempts_trace model_size 0 k !! (2 * i + 1)%nat
             = Some (Sleep (2 ^ Z.of_nat i))
          /\ exists e,
              whisper_load_model env
                (trace w ++ backoff_trace model_size 0 i) model_size
              = Raise e)
    /\ match fst (load_model_with_retry env model_size max_retries w) with
       | Ok (Some model) =>
           exists j, k = S j
             /\ whisper_load_model env
                  (trace w ++ backoff_trace model_size 0 j) model_size
                = Ok model
       | Ok None => k = O /\ max_retries <= 0
       | Raise e =>
           exists j, k = S j /\ k = Z.to_nat max_retries
             /\ whisper_load_model env
                  (trace w ++ backoff_trace model_size 0 j) model_size
                = Raise e
       | Unwind b =>
           exists j, k = S j
             /\ whisper_load_model env
                  (trace w ++ backoff_trace model_size 0 j) model_size
                = Unwind b
       end.
Proof.
  destruct (load_model_with_retry_outcome env model_size max_retries w)
    as (k & Hk & _ & _ & Htrace & Hprev & Hres).
  exists k. split; [ exact Hk | ]. split; [ exact Htrace | ].
  split; [ apply count_loads_attempts | ].
  split.
  - intros i Hi.
    destruct (attempts_trace_wait model_size k i Hi) as [Hload Hwait].
    auto.
  - destruct (fst (load_model_with_retry env model_size max_retries w))
      as [[model|]|e|b]; [ exact Hres | | exact Hres | exact Hres ].
    destruct Hres as [-> Htodo]. split; [ done | lia ].
Qed.

(** Two failures, then a success: waits of one and of two seconds, and the
    third attempt's model. *)
Example load_succeeds_on_third_attempt :
  load_model_with_retry
    (scripted [Raise (load_error 1); Raise (load_error 2); Ok 7%nat]
              (Ok sample_result))
    "base" 3 (initial_world ∅)
  = (Ok (Some 7%nat),
     World initial_models ∅
           [LoadModel "base"; Sleep 1; LoadModel "base"; Sleep 2;
            LoadModel "base"]).
Proof. reflexivity. Qed.

(** C2. On a registry whose entry for a supported identifier is unset,
    [get_model] calls the loader at least once; and when it returns, it
    returns a model that is stored, and every later [get_model] for that
    identifier, after whatever requests came in between, returns that same
    model and leaves the world as it was: no call of the loader. *)
Theorem get_model_loads_once
        (env : environment) (model_size : string) (w : world) :
  Dict.get model_size (models w) = Some None ->
  (exists evs,
      trace (snd (get_model env model_size w))
      = trace w ++ LoadModel model_size :: evs)
  /\ forall h,
      fst (get_model env model_size w) = Ok h ->
      exists model,
        h = Some model
        /\ forall w2,
            later env (snd (get_model env model_size w)) w2 ->
            get_model env model_size w2 = (Ok (Some model), w2).
Proof.
  intros Hcold. split.
  - rewrite (get_model_cold _ _ _ Hcold).
    destruct (load_model_with_retry_outcome env model_size 3 w)
      as (k & Hk & _ & _ & Htrace & _ & Hres).
    destruct (load_model_with_retry env model_size 3 w) as [r w1].
    simpl in *.
    assert (exists j, k = S j) as [j ->].
    { destruct r as [[model|]|e|b].
      - destruct Hres as (j & -> & _). eauto.
      - destruct Hres as [_ Hres]. discriminate.
      - destruct Hres as (j & -> & _). eauto.
      - destruct Hres as (j & -> & _). eauto. }
    assert (exists evs, attempts_trace model_size 0 (S j)
                        = LoadModel model_size :: evs) as [evs Hevs].
    { unfold attempts_trace. destruct j as [|j]; simpl; eauto. }
    exists evs. rewrite <- Hevs, <- Htrace. by destruct r.
  - intros h Hh.
    destruct (get_model_returns_model env model_size w h Hh)
      as (model & -> & Hstored).
    exists model. split; [ done | ].
    intros w2 Hlater. apply get_model_loaded.
    by eapply later_keeps_loaded.
Qed.

Lemma get_model_loads_once_witness :
  Dict.get "base" (models w0) = Some None
  /\ fst (get_model env_second_try "base" w0) = Ok (Some 7%nat)
  /\ get_model env_second_try "base"
       (snd (process_audio env_second_try (Some speech) "large"
               (snd (get_model env_second_try "base" w0))))
     = (Ok (Some 7%nat),
        snd (process_audio env_second_try (Some speech) "large"
               (snd (get_model env_second_try "base" w0)))).
Proof.
  split; [ reflexivity | ]. split; [ reflexivity | ].
  destruct (get_model_loads_once env_second_try "base" w0 eq_refl)
    as [_ Hagain].
  destruct (Hagain (Some 7%nat) eq_refl) as (model & Hmodel & Hlater).
  injection Hmodel as <-.
  apply Hlater. apply rtc_once. apply step_process_audio.
Defined.

(** C4. When the entry of an identifier is unset and all three attempts
    that [get_model] allows fail, [get_model] raises the exception of the
    third attempt, after waits of one and of two seconds, and the registry
    is what it was: the entry is still unset.  No trace of the failure is
    kept, so a call in any world whose entry is unset, this one included,
    is again [load_model_with_retry] with all three attempts to make. *)
Theorem get_model_failure_leaves_entry_unset
        (env : environment) (model_size : string) (w : world) (e0 e1 e2 : exn) :
  Dict.get model_size (models w) = Some None ->
  whisper_load_model env (trace w) model_size = Raise e0 ->
  whisper_load_model env
    (trace w ++ [LoadModel model_size; Sleep 1]) model_size = Raise e1 ->
  whisper_load_model env
    (trace w ++ [LoadModel model_size; Sleep 1; LoadModel model_size; Sleep 2])
    model_size = Raise e2 ->
  let w' :=
    World (models w) (fs w)
          (trace w ++ [LoadModel model_size; Sleep 1;
                       LoadModel model_size; Sleep 2; LoadModel model_size]) in
  get_model env model_size w = (Raise e2, w')
  /\ Dict.get model_size (models w') = Some None
  /\ forall w2,
      Dict.get model_size (models w2) = Some None ->
      get_model env model_size w2
      = match load_model_with_retry env model_size 3 w2 with
        | (Ok loaded, w3) =>
            (Ok loaded,
             World (Dict.set model_size loaded (models w3)) (fs w3) (trace w3))
        | (Raise e, w3) => (Raise e, w3)
        | (Unwind b, w3) => (Unwind b, w3)
        end.
Proof.
  intros Hcold H0 H1 H2 w'. split; [ | split ].
  - rewrite (get_model_cold _ _ _ Hcold).
    unfold load_model_with_retry.
    change (Z.to_nat 3) with 3%nat.
    cbn [retry_loop]. unfold try_except, bind, record, modify, ret, raise.
    rewrite external_run, H0. simpl.
    change (2 ^ 0) with 1. change (2 ^ (0 + 1)) with 2.
    rewrite <- ?app_assoc. simpl. rewrite H1. simpl.
    rewrite <- ?app_assoc. simpl. rewrite H2. simpl.
    unfold w'. by rewrite <- ?app_assoc.
  - exact Hcold.
  - intros w2 Hw2. by apply get_model_cold.
Qed.

Lemma get_model_failure_leaves_entry_unset_witness :
  get_model env_never_loads "large" w0
  = (Raise (load_error 3),
     World initial_models ∅
           [LoadModel "large"; Sleep 1; LoadModel "large"; Sleep 2;
            LoadModel "large"]).
Proof.
  apply (get_model_failure_leaves_entry_unset env_never_loads "large" w0
           (load_error 1) (load_error 2) (load_error 3));
    reflexivity.
Defined.

(** C5. An upload for a registered identifier whose extension, the last
    one of the file name in lower case, is none of [.mp3], [.wav], [.m4a],
    is rejected with status 400 and the world is untouched: no call of the
    loader, no scratch file, the same registry. *)
Theorem unsupported_file_type_rejected
        (env : environment) (w : world) (f : UploadFile) (model_size : string) :
  Dict.mem model_size (models w) = true ->
  set_mem (upload_ext f) [".mp3"; ".wav"; ".m4a"] = false ->
  process_audio env (Some f) model_size w
  = (Raise (HTTPException 400
              ("File type not supported. Allowed types: "
               ++ Str.join ", " (set_iteration env allowed_extensions))),
     w).
Proof.
  intros Hmem Hext.
  unfold process_audio, bind, gets, raise.
  rewrite Hmem. simpl negb. cbv iota.
  unfold allowed_extensions at 1. by rewrite Hext.
Qed.

Lemma unsupported_file_type_rejected_witness :
  upload_ext notes = ".txt"
  /\ process_audio env_ok (Some notes) "base" w0
     = (Raise (HTTPException 400
                 "File type not supported. Allowed types: .mp3, .wav, .m4a"),
        w0).
Proof.
  split; [ reflexivity | ].
  apply (unsupported_file_type_rejected env_ok w0 notes "base"); reflexivity.
Defined.

(** The extension is the last one, and its case does not matter. *)
Example upload_ext_examples :
  upload_ext {| filename := "talk.tar.WAV"; payload := [] |} = ".wav"
  /\ upload_ext {| filename := "a.mp3.txt"; payload := [] |} = ".txt"
  /\ upload_ext {| filename := "dir.m4a/readme"; payload := [] |} = ""
  /\ upload_ext {| filename := ".mp3"; payload := [] |} = "".
Proof. repeat split. Qed.

(** C1, as amended.  Once the scratch file of a request has been made,
    it does not exist when [process_audio] is left by a return or by an
    exception deriving from [Exception]: after a response, after an
    exception of [transcribe], after any other exception raised once the
    file exists. *)
Theorem scratch_file_removed
        (env : environment) (w : world) (f : UploadFile) (model_size : string)
        (model : option model_obj) (name : string) (w2 : world) :
  valid_request w (Some f) model_size = true ->
  created env f model_size w model name w2 ->
  unwound (fst (process_audio env (Some f) model_size w)) = false ->
  name ∉ fs (snd (process_audio env (Some f) model_size w)).
Proof.
  intros Hvalid Hcreated.
  assert (Hgone : forall files : gset string, name ∉ files ∖ {[ name ]}).
  { intros files [_ Hn]%elem_of_difference. apply Hn. by apply elem_of_singleton. }
  destruct (write_upload env f name w2) as [[[]|e|b] w3] eqn:Hwrite.
  2: { rewrite (run_writing_fails _ _ _ _ _ _ _ _ _ Hvalid Hcreated Hwrite).
       intros _. apply Hgone. }
  2: { rewrite (run_writing_unwinds _ _ _ _ _ _ _ _ _ Hvalid Hcreated Hwrite).
       discriminate. }
  assert (Hpersisted : persisted env f model_size w model name w3)
    by (exists w2; auto).
  destruct (transcribe env model name w3) as [[result|e|b] w4] eqn:Hrun.
  2: { rewrite (run_transcription_fails _ _ _ _ _ _ _ _ _
                  Hvalid Hpersisted Hrun).
       intros _. apply Hgone. }
  2: { rewrite (run_transcription_unwinds _ _ _ _ _ _ _ _ _
                  Hvalid Hpersisted Hrun).
       discriminate. }
  assert (Hdone : transcribed env f model_size w name result w4)
    by (exists model, w3; auto).
  rewrite (run_transcribed _ _ _ _ _ _ _ Hvalid Hdone).
  destruct (response_of result); intros _; apply Hgone.
Qed.

Lemma scratch_file_removed_witness :
  scratch
    ∉ fs (snd (process_audio env_transcribe_fails (Some speech) "base" w0)).
Proof.
  apply (scratch_file_removed env_transcribe_fails w0 speech "base"
           (Some 7%nat) scratch after_create).
  - reflexivity.
  - exists after_load. split; vm_compute; reflexivity.
  - vm_compute. reflexivity.
Defined.

(** C1, as stated, fails.  The request for [speech] is cancelled while it
    awaits [file.read()], after the scratch file was made: the
    [CancelledError] is no [Exception], so the handler does not run; the
    file is closed by the [with] block, never unlinked, and still exists
    when [process_audio] is left. *)
Lemma cancelled_read_leaves_scratch_file :
  valid_request w0 (Some speech) "base" = true
  /\ created env_cancelled speech "base" w0 (Some 7%nat) scratch after_create
  /\ process_audio env_cancelled (Some speech) "base" w0
     = (Unwind CancelledError,
        World base_loaded {[ scratch ]}
              [LoadModel "base"; Create scratch; ReadUpload; Close scratch])
  /\ scratch
       ∈ fs (snd (process_audio env_cancelled (Some speech) "base" w0)).
Proof.
  split; [ reflexivity | ]. split; [ | split ].
  - exists after_load. split; vm_compute; reflexivity.
  - vm_compute. reflexivity.
  - vm_compute. reflexivity.
Qed.

(** C7. A request that fails a check before the [try] block is answered
    with status 400, never 500, and changes nothing.  For a request that
    passes them, an exception raised while the model is acquired, while the
    scratch file is made and written, or by [transcribe], leaves
    [process_audio] as an [HTTPException] of status 500 whose detail is
    [str] of that exception. *)
Theorem internal_errors_become_500
        (env : environment) (w : world) (file : option UploadFile)
        (model_size : string) :
  (valid_request w file model_size = false ->
   exists detail,
     process_audio env file model_size w
     = (Raise (HTTPException 400 detail), w))
  /\ (forall f e,
        file = Some f ->
        valid_request w file model_size = true ->
        internal_failure env f model_size w e ->
        fst (process_audio env file model_size w)
        = Raise (HTTPException 500 (str_exn e))).
Proof.
  split; [ apply process_audio_invalid | ].
  intros f e -> Hvalid
         [w1 Hget | model w1 w2 Hget Hnew
          | model name w2 w3 Hcreated Hwrite
          | model name w3 w4 Hpersisted Hrun].
  - by rewrite (run_acquisition_fails _ _ _ _ _ _ Hvalid Hget).
  - by rewrite (run_creation_fails _ _ _ _ _ _ _ _ Hvalid Hget Hnew).
  - by rewrite (run_writing_fails _ _ _ _ _ _ _ _ _ Hvalid Hcreated Hwrite).
  - by rewrite (run_transcription_fails _ _ _ _ _ _ _ _ _
                  Hvalid Hpersisted Hrun).
Qed.

Lemma internal_errors_become_500_witness :
  (exists detail,
      process_audio env_transcribe_fails (Some notes) "base" w0
      = (Raise (HTTPException 400 detail), w0))
  /\ fst (process_audio env_transcribe_fails (Some speech) "base" w0)
     = Raise (HTTPException 500 "CUDA out of memory").
Proof.
  split.
  - apply (internal_errors_become_500 env_transcribe_fails w0
             (Some notes) "base").
    reflexivity.
  - apply (proj2 (internal_errors_become_500 env_transcribe_fails w0
                    (Some speech) "base")
             speech cuda_error);
      [ reflexivity | reflexivity | ].
    apply (transcription_fails env_transcribe_fails speech "base" w0 _
             (Some 7%nat) scratch after_write after_transcribe).
    + exists after_create. split; [ | vm_compute; reflexivity ].
      exists after_load. split; vm_compute; reflexivity.
    + vm_compute; reflexivity.
Defined.

(** C8, as amended.  When [transcribe] has returned a result whose [text]
    and [segments] entries the JSON encoder can render, the response has
    status 200 and its content is the dictionary of exactly these two
    entries, each the very value the model returned. *)
Theorem response_carries_model_output
        (env : environment) (w : world) (f : UploadFile) (model_size : string)
        (name : string) (result : list (string * pyval)) (w4 : world)
        (text segments : pyval) :
  valid_request w (Some f) model_size = true ->
  transcribed env f model_size w name result w4 ->
  Dict.get "text" result = Some text ->
  Dict.get "segments" result = Some segments ->
  json_error (PyDict [("text", text); ("segments", segments)]) = None ->
  fst (process_audio env (Some f) model_size w)
  = Ok {| status := 200;
          content := PyDict [("text", text); ("segments", segments)] |}.
Proof.
  intros Hvalid Hdone Htext Hsegments Hjson.
  rewrite (run_transcribed _ _ _ _ _ _ _ Hvalid Hdone).
  assert (response_of result
          = Ok {| status := 200;
                  content := PyDict [("text", text); ("segments", segments)] |})
    as ->; [ | done ].
  unfold response_of, respond, getitem, new_JSONResponse, bind, ret.
  by rewrite Htext, Hsegments, Hjson.
Qed.

Lemma response_carries_model_output_witness :
  fst (process_audio env_ok (Some speech) "base" w0)
  = Ok {| status := 200;
          content :=
            PyDict
              [("text", PyStr " Hello world.");
               ("segments",
                PyList [PyDict [("id", PyInt 0);
                                ("start", PyFloat (S754_zero false));
                                ("end", PyFloat (S754_finite false 5 (-1)));
                                ("text", PyStr " Hello world.")]])] |}.
Proof.
  apply (response_carries_model_output env_ok w0 speech "base" scratch
           sample_result after_transcribe);
    [ reflexivity | | reflexivity | reflexivity | reflexivity ].
  exists (Some 7%nat), after_write. split; [ | vm_compute; reflexivity ].
  exists after_create. split; [ | vm_compute; reflexivity ].
  exists after_load. split; vm_compute; reflexivity.
Defined.

(** C8, as stated, fails.  The model transcribes [speech] and returns a
    text and a list of segments, one of them with a NaN [avg_logprob];
    [JSONResponse] cannot render it, and the request ends in an exception
    instead of a response. *)
Lemma nan_segment_defeats_response :
  valid_request w0 (Some speech) "base" = true
  /\ transcribed env_nan speech "base" w0 scratch nan_result after_transcribe
  /\ (exists text segments,
        Dict.get "text" nan_result = Some text
        /\ Dict.get "segments" nan_result = Some segments)
  /\ fst (process_audio env_nan (Some speech) "base" w0)
     = Raise (PyError "FileNotFoundError"
                "[Errno 2] No such file or directory: '/tmp/tmpk3x9q2l_.mp3'").
Proof.
  split; [ reflexivity | ]. split; [ | split ].
  - exists (Some 7%nat), after_write. split; [ | vm_compute; reflexivity ].
    exists after_create. split; [ | vm_compute; reflexivity ].
    exists after_load. split; vm_compute; reflexivity.
  - eexists _, _. split; reflexivity.
  - vm_compute. reflexivity.
Qed.

(** C6 at the failing input.  The upload has been written to the scratch
    file and [transcribe] has returned; the file is unlinked, building the
    response raises, and the handler calls [os.unlink] on the same name a
    second time. *)
Theorem release_repeated_when_response_fails :
  persisted env_nan speech "base" w0 (Some 7%nat) scratch after_write
  /\ trace (snd (process_audio env_nan (Some speech) "base" w0))
     = [LoadModel "base"; Create scratch; ReadUpload; WriteFile scratch [];
        Flush scratch; Transcribe 7%nat scratch; Unlink scratch;
        Close scratch; Unlink scratch]
  /\ count_unlinks scratch
       (trace (snd (process_audio env_nan (Some speech) "base" w0)))
     = 2%nat.
Proof.
  split; [ | split ].
  - exists after_create. split; [ | vm_compute; reflexivity ].
    exists after_load. split; vm_compute; reflexivity.
  - vm_compute. reflexivity.
  - vm_compute. reflexivity.
Qed.

(** C9.  The status route answers with a [model_status] dictionary that
    has the keys of the registry, in its order, and maps a name to
    [not loaded] when its entry is unset and to [loaded] when its entry
    holds a model; it changes nothing.  So both names read [not loaded] in
    the registry the module starts with, and a name reads [loaded] as soon
    as [get_model] has returned for it. *)
Theorem status_reflects_registry (env : environment) (w : world) :
  (exists message endpoints,
      root w
      = (Ok (PyDict [("message", message); ("endpoints", endpoints);
                     ("model_status", PyDict (model_status (models w)))]),
         w))
  /\ Dict.keys (model_status (models w)) = Dict.keys (models w)
  /\ (forall name,
        Dict.get name (models w) = Some None ->
        Dict.get name (model_status (models w)) = Some (PyStr "not loaded"))
  /\ (forall name model,
        Dict.get name (models w) = Some (Some model) ->
        Dict.get name (model_status (models w)) = Some (PyStr "loaded"))
  /\ (forall files,
        model_status (models (initial_world files))
        = [("base", PyStr "not loaded"); ("large", PyStr "not loaded")])
  /\ (forall model_size h,
        fst (get_model env model_size w) = Ok h ->
        Dict.get model_size
          (model_status (models (snd (get_model env model_size w))))
        = Some (PyStr "loaded")).
Proof.
  assert (Hkeys : forall d : list (string * option model_obj),
             Dict.keys (model_status d) = Dict.keys d).
  { intros d. unfold Dict.keys, model_status. rewrite map_map.
    apply map_ext. by intros [name model]. }
  assert (Hget : forall (d : list (string * option model_obj)) name entry,
             Dict.get name d = Some entry ->
             Dict.get name (model_status d)
             = Some (PyStr (match entry with
                            | Some _ => "loaded"
                            | None => "not loaded"
                            end))).
  { intros d name entry. induction d as [|[k v] d IH]; simpl; [ done | ].
    destruct (String.eqb name k); [ | exact IH ]. by intros [= ->]. }
  split; [ by eexists _, _ | ].
  split; [ apply Hkeys | ].
  split; [ intros name H; apply (Hget _ _ _ H) | ].
  split; [ intros name model H; apply (Hget _ _ _ H) | ].
  split; [ done | ].
  intros model_size h Hh.
  destruct (get_model_returns_model env model_size w h Hh)
    as (model & _ & Hstored).
  apply (Hget _ _ _ Hstored).
Qed.

Lemma status_reflects_registry_witness :
  Dict.get "base" (model_status (models w0)) = Some (PyStr "not loaded")
  /\ Dict.get "base"
       (model_status (models (snd (get_model env_second_try "base" w0))))
     = Some (PyStr "loaded")
  /\ Dict.get "large"
       (model_status (models (snd (get_model env_second_try "base" w0))))
     = Some (PyStr "not loaded").
Proof.
  split; [ | split ].
  - apply (status_reflects_registry env_second_try w0). reflexivity.
  - apply (proj2 (proj2 (proj2 (proj2 (proj2
             (status_reflects_registry env_second_try w0)))))
             "base" (Some 7%nat)).
    reflexivity.
  - apply (status_reflects_registry env_second_try
             (snd (get_model env_second_try "base" w0))).
    reflexivity.
Defined.

(** How a request that passed the checks can end: a response, a 500,
    the [FileNotFoundError] of the handler's own [os.unlink], or what is
    no [Exception] passing through. *)
Lemma process_audio_outcomes
      (env : environment) (w : world) (f : UploadFile) (model_size : string) :
  valid_request w (Some f) model_size = true ->
  (exists response,
      fst (process_audio env (Some f) model_size w) = Ok response)
  \/ (exists detail,
        fst (process_audio env (Some f) model_size w)
        = Raise (HTTPException 500 detail))
  \/ (exists message,
        fst (process_audio env (Some f) model_size w)
        = Raise (PyError "FileNotFoundError" message))
  \/ (exists b,
        fst (process_audio env (Some f) model_size w) = Unwind b).
Proof.
  intros Hvalid.
  destruct (get_model env model_size w) as [[model|e|b] w1] eqn:Hget;
    [ | rewrite (run_acquisition_fails _ _ _ _ _ _ Hvalid Hget); eauto
      | rewrite (run_acquisition_unwinds _ _ _ _ _ _ Hvalid Hget); eauto 6 ].
  destruct (named_temporary_file env (upload_ext f) w1)
    as [[name|e|b] w2] eqn:Hnew;
    [ | rewrite (run_creation_fails _ _ _ _ _ _ _ _ Hvalid Hget Hnew); eauto
      | rewrite (run_creation_unwinds _ _ _ _ _ _ _ _ Hvalid Hget Hnew);
        eauto 6 ].
  assert (Hcreated : created env f model_size w model name w2)
    by (exists w1; auto).
  destruct (write_upload env f name w2) as [[[]|e|b] w3] eqn:Hwrite;
    [ | rewrite (run_writing_fails _ _ _ _ _ _ _ _ _ Hvalid Hcreated Hwrite);
        eauto
      | rewrite (run_writing_unwinds _ _ _ _ _ _ _ _ _ Hvalid Hcreated Hwrite);
        eauto 6 ].
  assert (Hpersisted : persisted env f model_size w model name w3)
    by (exists w2; auto).
  destruct (transcribe env model name w3) as [[result|e|b] w4] eqn:Hrun;
    [ | rewrite (run_transcription_fails _ _ _ _ _ _ _ _ _
                   Hvalid Hpersisted Hrun); eauto
      | rewrite (run_transcription_unwinds _ _ _ _ _ _ _ _ _
                   Hvalid Hpersisted Hrun); eauto 6 ].
  assert (Hdone : transcribed env f model_size w name result w4)
    by (exists model, w3; auto).
  rewrite (run_transcribed _ _ _ _ _ _ _ Hvalid Hdone).
  destruct (response_of result); simpl; eauto 6.
Qed.

(** For a registered identifier the first check passes. *)
Lemma registered_model_accepted
      (env : environment) (w : world) (file : option UploadFile)
      (model_size detail : string) :
  Dict.mem model_size (models w) = true ->
  fst (process_audio env file model_size w)
  <> Raise (HTTPException 400
              ("Invalid model size. Supported sizes: " ++ detail)).
Proof.
  intros Hmem.
  destruct (valid_request w file model_size) eqn:Hvalid.
  - destruct file as [f|];
      [ | unfold valid_request in Hvalid; by rewrite andb_false_r in Hvalid ].
    destruct (process_audio_outcomes env w f model_size Hvalid)
      as [[response ->]|[[d ->]|[[message ->]|[b ->]]]]; discriminate.
  - unfold process_audio, bind, gets, raise. rewrite Hmem. simpl.
    destruct file as [f|]; [ | simpl; discriminate ].
    unfold valid_request in Hvalid. rewrite Hmem in Hvalid. simpl in Hvalid.
    unfold allowed_extensions in *. rewrite Hvalid. simpl. discriminate.
Qed.

(** C10.  In every world the process can get to from its start, whatever
    was requested before and whatever the outside answered, ["base"] and
    ["large"] are keys of the registry; so the membership test that guards
    the [Invalid model size] error passes for both routes, and neither
    route ever answers with that error. *)
Theorem invalid_model_branch_unreachable
        (env : environment) (files : gset string) (w : world)
        (file : option UploadFile) :
  later env (initial_world files) w ->
  Dict.keys (models w) = ["base"; "large"]
  /\ Dict.mem "base" (models w) = true
  /\ Dict.mem "large" (models w) = true
  /\ (forall detail,
        fst (transcribe_audio_fast env file w)
        <> Raise (HTTPException 400
                    ("Invalid model size. Supported sizes: " ++ detail)))
  /\ (forall detail,
        fst (transcribe_audio_accurate env file w)
        <> Raise (HTTPException 400
                    ("Invalid model size. Supported sizes: " ++ detail))).
Proof.
  intros Hlater.
  assert (Hkeys : Dict.keys (models w) = ["base"; "large"])
    by (by rewrite (later_keeps_keys _ _ _ Hlater)).
  assert (Hbase : Dict.mem "base" (models w) = true)
    by (apply dict_mem_keys; rewrite Hkeys; simpl; auto).
  assert (Hlarge : Dict.mem "large" (models w) = true)
    by (apply dict_mem_keys; rewrite Hkeys; simpl; auto).
  repeat split; try done.
  - intros detail. by apply registered_model_accepted.
  - intros detail. by apply registered_model_accepted.
Qed.

Lemma invalid_model_branch_unreachable_witness :
  Dict.keys
    (models (snd (transcribe_audio_fast env_never_loads (Some speech) w0)))
  = ["base"; "large"]
  /\ fst (transcribe_audio_accurate env_never_loads (Some notes)
            (snd (transcribe_audio_fast env_never_loads (Some speech) w0)))
     <> Raise (HTTPException 400
                 "Invalid model size. Supported sizes: base, large").
Proof.
  assert (Hlater :
            later env_never_loads (initial_world ∅)
                  (snd (transcribe_audio_fast env_never_loads (Some speech) w0)))
    by (apply rtc_once; apply step_process_audio).
  split.
  - apply (invalid_model_branch_unreachable env_never_loads ∅ _ None Hlater).
  - apply (proj2 (proj2 (proj2 (proj2
             (invalid_model_branch_unreachable env_never_loads ∅ _
                (Some notes) Hlater))))
             "base, large").
Defined.

(** ** How often the scratch file is released

    Apart from the path of C6, the release is called once for a file that
    was made, when the request is left by a return or an [Exception], and
    never for a request that made none. *)

Lemma count_unlinks_app (name : string) (evs1 evs2 : list event) :
  count_unlinks name (evs1 ++ evs2)
  = (count_unlinks name evs1 + count_unlinks name evs2)%nat.
Proof. unfold count_unlinks. by rewrite List.filter_app, List.length_app. Qed.



Lemma count_unlinks_other (name : string) (evs : list event) (ev : event) :
  is_unlink name ev = false ->
  count_unlinks name (evs ++ [ev]) = count_unlinks name evs.
Proof.
  intros Hev. rewrite count_unlinks_app.
  unfold count_unlinks at 2. simpl. rewrite Hev. simpl. lia.
Qed.

Lemma write_upload_no_unlink
      (env : environment) (name : string) (f : UploadFile) (n : string)
      (w : world) :
  count_unlinks name (trace (snd (write_upload env f n w)))
  = count_unlinks name (trace w).
Proof.
  unfold write_upload, bind. rewrite external_run.
  destruct (upload_read env (trace w) f); cbn [snd trace];
    [ | by rewrite count_unlinks_other | by rewrite count_unlinks_other ].
  rewrite external_run.
  destruct (temp_write _ _ _ _); cbn [snd trace models fs];
    [ | by rewrite !count_unlinks_other | by rewrite !count_unlinks_other ].
  rewrite external_run. cbn [snd trace].
  by rewrite !count_unlinks_other.
Qed.

Lemma transcribe_no_unlink
      (env : environment) (name : string) (model : option model_obj)
      (n : string) (w : world) :
  count_unlinks name (trace (snd (transcribe env model n w)))
  = count_unlinks name (trace w).
Proof.
  unfold transcribe. destruct model; [ | done ].
  rewrite external_run. cbn [snd trace]. by rewrite count_unlinks_other.
Qed.


(** X21. A request that made a scratch file and is left by a return or
    by an exception deriving from [Exception] calls [os.unlink] on that
    file once, unless [transcribe] returned a result from which no
    response can be built. *)
Lemma release_once_when_response_built
      (env : environment) (w : world) (f : UploadFile) (model_size : string)
      (model : option model_obj) (name : string) (w2 : world) :
  valid_request w (Some f) model_size = true ->
  created env f model_size w model name w2 ->
  unwound (fst (process_audio env (Some f) model_size w)) = false ->
  (forall result w4,
      transcribed env f model_size w name result w4 ->
      exists response, response_of result = Ok response) ->
  count_unlinks name (trace (snd (process_audio env (Some f) model_size w)))
  = S (count_unlinks name (trace w2)).
Proof.
  intros Hvalid Hcreated Hleft Hbuilt. revert Hleft.
  assert (Hself : count_unlinks name [Unlink name] = 1%nat)
    by (unfold count_unlinks; simpl; by rewrite String.eqb_refl).
  pose proof (write_upload_no_unlink env name f name w2) as Hw.
  destruct (write_upload env f name w2) as [[[]|e|b] w3] eqn:Hwrite;
    simpl in Hw.
  2: { rewrite (run_writing_fails _ _ _ _ _ _ _ _ _ Hvalid Hcreated Hwrite).
       intros _. cbn [snd trace].
       change [Close name; Unlink name] with ([Close name] ++ [Unlink name]).
       rewrite app_assoc, count_unlinks_app, Hself.
       rewrite count_unlinks_other by done. lia. }
  2: { rewrite (run_writing_unwinds _ _ _ _ _ _ _ _ _ Hvalid Hcreated Hwrite).
       discriminate. }
  assert (Hpersisted : persisted env f model_size w model name w3)
    by (exists w2; auto).
  pose proof (transcribe_no_unlink env name model name w3) as Ht.
  destruct (transcribe env model name w3) as [[result|e|b] w4] eqn:Hrun;
    simpl in Ht.
  2: { rewrite (run_transcription_fails _ _ _ _ _ _ _ _ _
                  Hvalid Hpersisted Hrun).
       intros _. cbn [snd trace].
       change [Close name; Unlink name] with ([Close name] ++ [Unlink name]).
       rewrite app_assoc, count_unlinks_app, Hself.
       rewrite count_unlinks_other by done. lia. }
  2: { rewrite (run_transcription_unwinds _ _ _ _ _ _ _ _ _
                  Hvalid Hpersisted Hrun).
       discriminate. }
  assert (Hdone : transcribed env f model_size w name result w4)
    by (exists model, w3; auto).
  rewrite (run_transcribed _ _ _ _ _ _ _ Hvalid Hdone).
  destruct (Hbuilt result w4 Hdone) as [response ->].
  intros _. cbn [snd trace].
  change [Unlink name; Close name] with ([Unlink name] ++ [Close name]).
  rewrite app_assoc, count_unlinks_other by done.
  rewrite count_unlinks_app, Hself. lia.
Qed.

(** * Further properties of the code *)

(** ** The loader *)

Lemma total_sleep_app (evs1 evs2 : list event) :
  total_sleep (evs1 ++ evs2) = total_sleep evs1 + total_sleep evs2.
Proof.
  induction evs1 as [|ev evs1 IH]; [ done | ].
  destruct ev; simpl; rewrite IH; lia.
Qed.

Lemma total_sleep_backoff (ms : string) (n : nat) :
  total_sleep (backoff_trace ms 0 n) = 2 ^ Z.of_nat n - 1.
Proof.
  induction n as [|n IH]; [ done | ].
  rewrite backoff_trace_snoc, total_sleep_app, IH.
  cbn [total_sleep]. rewrite Z.add_0_l, Z.add_0_r.
  rewrite Nat2Z.inj_succ, Z.pow_succ_r by lia. lia.
Qed.

Lemma total_sleep_attempts (ms : string) (k : nat) :
  total_sleep (attempts_trace ms 0 k) = 2 ^ Z.of_nat (pred k) - 1.
Proof.
  destruct k as [|j]; [ done | ].
  unfold attempts_trace. rewrite total_sleep_app, total_sleep_backoff.
  simpl. lia.
Qed.

(** X1. With [max_retries] zero or negative the loop body never runs:
    [load_model_with_retry] returns [None] without calling the loader and
    without waiting. *)
Theorem load_model_with_no_attempts_returns_none
        (env : environment) (model_size : string) (max_retries : Z) (w : world) :
  max_retries <= 0 ->
  load_model_with_retry env model_size max_retries w = (Ok None, w).
Proof.
  intros Hle. unfold load_model_with_retry.
  replace (Z.to_nat max_retries) with O by lia. reflexivity.
Qed.

Lemma load_model_with_no_attempts_returns_none_witness :
  load_model_with_retry env_ok "base" (-2) w0 = (Ok None, w0).
Proof.
  apply (load_model_with_no_attempts_returns_none env_ok "base" (-2) w0). lia.
Defined.

(** X2. A run of [load_model_with_retry] that calls the loader [n] times
    has slept [2 ^ (n - 1) - 1] seconds in all: nothing after one attempt,
    one second after two, three seconds after three. *)
Theorem load_model_with_retry_total_wait
        (env : environment) (model_size : string) (max_retries : Z) (w : world) :
  exists n : nat,
    count_loads (trace (snd (load_model_with_retry env model_size max_retries w)))
    = (count_loads (trace w) + n)%nat
    /\ (n <= Z.to_nat max_retries)%nat
    /\ total_sleep
         (trace (snd (load_model_with_retry env model_size max_retries w)))
       = total_sleep (trace w) + (2 ^ Z.of_nat (pred n) - 1).
Proof.
  destruct (load_model_with_retry_outcome env model_size max_retries w)
    as (k & Hk & _ & _ & Htrace & _).
  exists k. rewrite Htrace.
  rewrite count_loads_app, count_loads_attempts.
  rewrite total_sleep_app, total_sleep_attempts. auto.
Qed.

(** X3. One call of [get_model] calls the loader at most three times and
    sleeps at most three seconds; and for an identifier whose model is
    loaded it makes no external call at all. *)
Theorem get_model_effort_bounded
        (env : environment) (model_size : string) (w : world) :
  (count_loads (trace (snd (get_model env model_size w)))
   <= count_loads (trace w) + 3)%nat
  /\ total_sleep (trace w)
     <= total_sleep (trace (snd (get_model env model_size w)))
     <= total_sleep (trace w) + 3
  /\ (forall model,
        Dict.get model_size (models w) = Some (Some model) ->
        trace (snd (get_model env model_size w)) = trace w).
Proof.
  assert (Hcold :
            Dict.get model_size (models w) = Some None ->
            exists n,
              (n <= 3)%nat
              /\ trace (snd (get_model env model_size w))
                 = trace w ++ attempts_trace model_size 0 n).
  { intros Hentry. rewrite (get_model_cold _ _ _ Hentry).
    destruct (load_model_with_retry_outcome env model_size 3 w)
      as (k & Hk & _ & _ & Htrace & _).
    exists k. split; [ exact Hk | ].
    by destruct (load_model_with_retry env model_size 3 w)
      as [[loaded|e|b] w1]. }
  split; [ | split ].
  - destruct (Dict.get model_size (models w)) as [[model|]|] eqn:Hentry.
    + rewrite (get_model_loaded _ _ _ _ Hentry). simpl. lia.
    + destruct (Hcold eq_refl) as (n & Hn & ->).
      rewrite count_loads_app, count_loads_attempts. lia.
    + rewrite (get_model_missing _ _ _ Hentry). simpl. lia.
  - destruct (Dict.get model_size (models w)) as [[model|]|] eqn:Hentry.
    + rewrite (get_model_loaded _ _ _ _ Hentry). simpl. lia.
    + destruct (Hcold eq_refl) as (n & Hn & ->).
      rewrite total_sleep_app, total_sleep_attempts.
      destruct n as [|[|[|[|n]]]]; simpl; lia.
    + rewrite (get_model_missing _ _ _ Hentry). simpl. lia.
  - intros model Hentry. by rewrite (get_model_loaded _ _ _ _ Hentry).
Qed.

(** ** The registry *)

Lemma get_model_keeps_others
      (env : environment) (ms k : string) (w : world) :
  k <> ms ->
  Dict.get k (models (snd (get_model env ms w))) = Dict.get k (models w).
Proof.
  intros Hne.
  destruct (get_model_frame env ms w) as [_ [->|[_ [loaded ->]]]]; [ done | ].
  by apply dict_get_set_ne.
Qed.

(** X4. [get_model] for one identifier leaves the files, the list of
    identifiers and the entry of every other identifier as they were. *)
Theorem get_model_touches_only_its_entry
        (env : environment) (model_size other : string) (w : world) :
  other <> model_size ->
  fs (snd (get_model env model_size w)) = fs w
  /\ Dict.keys (models (snd (get_model env model_size w)))
     = Dict.keys (models w)
  /\ Dict.get other (models (snd (get_model env model_size w)))
     = Dict.get other (models w).
Proof.
  intros Hne. split; [ | split ].
  - apply get_model_frame.
  - apply get_model_keeps_keys.
  - by apply get_model_keeps_others.
Qed.

Lemma get_model_touches_only_its_entry_witness :
  Dict.get "large" (models (snd (get_model env_ok "base" w0))) = Some None
  /\ Dict.get "base" (models (snd (get_model env_ok "base" w0)))
     = Some (Some 7%nat).
Proof.
  split; [ | reflexivity ].
  apply (get_model_touches_only_its_entry env_ok "base" "large" w0).
  discriminate.
Defined.

(** X5. In every world the process can get to, [get_model] for an
    identifier other than ["base"] and ["large"] raises a [KeyError] whose
    [str] is the [repr] of the identifier, and does nothing else: the
    loader is not called and no entry is added. *)
Theorem get_model_unknown_identifier
        (env : environment) (files : gset string) (w : world)
        (model_size : string) :
  later env (initial_world files) w ->
  model_size <> "base" ->
  model_size <> "large" ->
  get_model env model_size w
  = (Raise (PyError "KeyError" (Repr.repr model_size)), w).
Proof.
  intros Hlater Hbase Hlarge. apply get_model_missing.
  destruct (Dict.get model_size (models w)) eqn:Hentry; [ | done ].
  assert (Hin : In model_size (Dict.keys (models w))).
  { apply dict_mem_keys. unfold Dict.mem. by rewrite Hentry. }
  rewrite (later_keeps_keys _ _ _ Hlater) in Hin. simpl in Hin.
  destruct Hin as [Hin|[Hin|[]]]; congruence.
Qed.

Lemma get_model_unknown_identifier_witness :
  get_model env_ok "medium" (snd (get_model env_ok "base" w0))
  = (Raise (PyError "KeyError" "'medium'"), snd (get_model env_ok "base" w0)).
Proof.
  change "'medium'" with (Repr.repr "medium").
  apply (get_model_unknown_identifier env_ok ∅
           (snd (get_model env_ok "base" w0)) "medium").
  - apply rtc_once. apply step_get_model.
  - discriminate.
  - discriminate.
Defined.



(** X7. A request for one identifier never changes the entry of another:
    the fast route leaves ["large"] alone, the accurate route ["base"]. *)
Theorem process_audio_touches_only_its_entry
        (env : environment) (w : world) (file : option UploadFile)
        (model_size other : string) :
  other <> model_size ->
  Dict.get other (models (snd (process_audio env file model_size w)))
  = Dict.get other (models w).
Proof.
  intros Hne.
  destruct (process_audio_models env file model_size w) as [-> | ->];
    [ | done ].
  by apply get_model_keeps_others.
Qed.

Lemma process_audio_touches_only_its_entry_witness :
  Dict.get "large"
    (models (snd (transcribe_audio_fast env_ok (Some speech) w0)))
  = Some None.
Proof.
  apply (process_audio_touches_only_its_entry env_ok w0 (Some speech)
           "base" "large").
  discriminate.
Defined.

(** ** The checks of [process_audio] *)

(** X8. In every world the process can get to, [process_audio] for an
    identifier other than ["base"] and ["large"] raises the 400 that lists
    the identifiers in the order of the registry, whatever the upload, even
    a missing one or one of a wrong type, and changes nothing. *)
Theorem unknown_model_rejected_first
        (env : environment) (files : gset string) (w : world)
        (file : option UploadFile) (model_size : string) :
  later env (initial_world files) w ->
  model_size <> "base" ->
  model_size <> "large" ->
  process_audio env file model_size w
  = (Raise (HTTPException 400
              "Invalid model size. Supported sizes: base, large"),
     w).
Proof.
  intros Hlater Hbase Hlarge.
  assert (Hkeys : Dict.keys (models w) = ["base"; "large"])
    by (by rewrite (later_keeps_keys _ _ _ Hlater)).
  assert (Hmem : Dict.mem model_size (models w) = false).
  { destruct (Dict.mem model_size (models w)) eqn:Hmem; [ | done ].
    apply dict_mem_keys in Hmem. rewrite Hkeys in Hmem. simpl in Hmem.
    destruct Hmem as [Hin|[Hin|[]]]; congruence. }
  unfold process_audio, bind, gets, raise. rewrite Hmem, Hkeys. reflexivity.
Qed.

Lemma unknown_model_rejected_first_witness :
  process_audio env_ok None "medium" after_load
  = (Raise (HTTPException 400
              "Invalid model size. Supported sizes: base, large"),
     after_load).
Proof.
  apply (unknown_model_rejected_first env_ok ∅ after_load None "medium").
  - apply rtc_once.
    change after_load with (snd (get_model env_ok "base" (initial_world ∅))).
    apply step_get_model.
  - discriminate.
  - discriminate.
Defined.

(** X10. [process_audio] raises an [HTTPException] of status 400 exactly
    when one of its three checks fails, and no [HTTPException] of a status
    other than 400 and 500. *)
Theorem bad_request_iff_check_fails
        (env : environment) (w : world) (file : option UploadFile)
        (model_size : string) :
  ((exists detail,
       fst (process_audio env file model_size w)
       = Raise (HTTPException 400 detail))
   <-> valid_request w file model_size = false)
  /\ (forall status_code detail,
        fst (process_audio env file model_size w)
        = Raise (HTTPException status_code detail) ->
        status_code = 400 \/ status_code = 500).
Proof.
  destruct (valid_request w file model_size) eqn:Hvalid.
  - destruct file as [f|];
      [ | unfold valid_request in Hvalid; by rewrite andb_false_r in Hvalid ].
    destruct (process_audio_outcomes env w f model_size Hvalid)
      as [[response Hr]|[[d Hr]|[[message Hr]|[b Hr]]]]; rewrite Hr.
    + split; [ split; [ intros [detail H]; discriminate | discriminate ] | ].
      intros s d H. discriminate.
    + split; [ split; [ intros [detail H]; discriminate | discriminate ] | ].
      intros s d' [= <- _]. by right.
    + split; [ split; [ intros [detail H]; discriminate | discriminate ] | ].
      intros s d H. discriminate.
    + split; [ split; [ intros [detail H]; discriminate | discriminate ] | ].
      intros s d H. discriminate.
  - destruct (process_audio_invalid env _ _ _ Hvalid) as [detail ->].
    split; [ split; [ done | eauto ] | ].
    intros s d [= <- _]. by left.
Qed.

(** ** The paths through the [try] block *)

(** The ways a request that passed the checks can go: an exception of
    one of the four stages, a returned [transcribe], or a stage left by
    what is no [Exception]. *)
Lemma process_audio_cases
      (env : environment) (w : world) (f : UploadFile) (ms : string) :
  valid_request w (Some f) ms = true ->
  (exists e w1,
      get_model env ms w = (Raise e, w1)
      /\ process_audio env (Some f) ms w
         = (Raise (HTTPException 500 (str_exn e)), w1))
  \/ (exists model w1 e,
        get_model env ms w = (Ok model, w1)
        /\ named_temporary_file env (upload_ext f) w1 = (Raise e, w1)
        /\ process_audio env (Some f) ms w
           = (Raise (HTTPException 500 (str_exn e)), w1))
  \/ (exists model name w2 e w3,
        created env f ms w model name w2
        /\ write_upload env f name w2 = (Raise e, w3)
        /\ process_audio env (Some f) ms w
           = (Raise (HTTPException 500 (str_exn e)),
              World (models w3) (fs w3 ∖ {[ name ]})
                    (trace w3 ++ [Close name; Unlink name])))
  \/ (exists model name w3 e w4,
        persisted env f ms w model name w3
        /\ transcribe env model name w3 = (Raise e, w4)
        /\ process_audio env (Some f) ms w
           = (Raise (HTTPException 500 (str_exn e)),
              World (models w4) (fs w4 ∖ {[ name ]})
                    (trace w4 ++ [Close name; Unlink name])))
  \/ (exists name result w4,
        transcribed env f ms w name result w4
        /\ process_audio env (Some f) ms w
           = match response_of result with
             | Ok response =>
                 (Ok response,
                  World (models w4) (fs w4 ∖ {[ name ]})
                        (trace w4 ++ [Unlink name; Close name]))
             | Raise _ =>
                 (Raise (PyError "FileNotFoundError"
                           ("[Errno 2] No such file or directory: "
                            ++ Repr.repr name)),
                  World (models w4) (fs w4 ∖ {[ name ]})
                        (trace w4 ++ [Unlink name; Close name; Unlink name]))
             | Unwind b =>
                 (Unwind b,
                  World (models w4) (fs w4 ∖ {[ name ]})
                        (trace w4 ++ [Unlink name; Close name]))
             end)
  \/ (exists b w',
        process_audio env (Some f) ms w = (Unwind b, w')
        /\ (get_model env ms w = (Unwind b, w')
            \/ (exists model,
                  get_model env ms w = (Ok model, w')
                  /\ named_temporary_file env (upload_ext f) w'
                     = (Unwind b, w'))
            \/ (exists model name w2 w3,
                  created env f ms w model name w2
                  /\ write_upload env f name w2 = (Unwind b, w3)
                  /\ w' = World (models w3) (fs w3)
                                (trace w3 ++ [Close name]))
            \/ (exists model name w3 w4,
                  persisted env f ms w model name w3
                  /\ transcribe env model name w3 = (Unwind b, w4)
                  /\ w' = World (models w4) (fs w4)
                                (trace w4 ++ [Close name])))).
Proof.
  intros Hvalid.
  destruct (get_model env ms w) as [[model|e|b] w1] eqn:Hget.
  2: { left. exists e, w1. split; [ done | ].
       by apply run_acquisition_fails. }
  2: { do 5 right. exists b, w1.
       split; [ by apply run_acquisition_unwinds | by left ]. }
  destruct (named_temporary_file env (upload_ext f) w1)
    as [[name|e|b] w2] eqn:Hnew.
  2: { right. left. exists model, w1, e.
       pose proof (named_temporary_file_raise _ _ _ _ _ Hnew) as ->.
       split; [ done | ]. split; [ done | ].
       by eapply run_creation_fails. }
  2: { do 5 right. exists b, w1.
       pose proof (named_temporary_file_unwind _ _ _ _ _ Hnew) as ->.
       split; [ by eapply run_creation_unwinds | ].
       right. left. by exists model. }
  assert (Hcreated : created env f ms w model name w2) by (exists w1; auto).
  destruct (write_upload env f name w2) as [[[]|e|b] w3] eqn:Hwrite.
  2: { right. right. left. exists model, name, w2, e, w3.
       split; [ done | ]. split; [ done | ].
       by eapply run_writing_fails. }
  2: { do 5 right.
       exists b, (World (models w3) (fs w3) (trace w3 ++ [Close name])).
       split; [ by eapply run_writing_unwinds | ].
       right. right. left. by exists model, name, w2, w3. }
  assert (Hpersisted : persisted env f ms w model name w3)
    by (exists w2; auto).
  destruct (transcribe env model name w3) as [[result|e|b] w4] eqn:Hrun.
  2: { right. right. right. left. exists model, name, w3, e, w4.
       split; [ done | ]. split; [ done | ].
       by eapply run_transcription_fails. }
  2: { do 5 right.
       exists b, (World (models w4) (fs w4) (trace w4 ++ [Close name])).
       split; [ by eapply run_transcription_unwinds | ].
       right. right. right. by exists model, name, w3, w4. }
  assert (Hdone : transcribed env f ms w name result w4)
    by (exists model, w3; auto).
  right. right. right. right. left. exists name, result, w4.
  split; [ done | ]. by apply run_transcribed.
Qed.

(** The files while the scratch file is in use. *)
Lemma created_files
      (env : environment) (f : UploadFile) (ms : string) (w : world)
      (model : option model_obj) (name : string) (w2 : world) :
  created env f ms w model name w2 -> fs w2 = {[ name ]} ∪ fs w.
Proof.
  intros (w1 & Hget & Hnew).
  apply named_temporary_file_ok in Hnew as ->. simpl.
  destruct (get_model_frame env ms w) as [Hfs _].
  rewrite Hget in Hfs. simpl in Hfs. by rewrite Hfs.
Qed.

Lemma persisted_files
      (env : environment) (f : UploadFile) (ms : string) (w : world)
      (model : option model_obj) (name : string) (w3 : world) :
  persisted env f ms w model name w3 -> fs w3 = {[ name ]} ∪ fs w.
Proof.
  intros (w2 & Hcreated & Hwrite).
  destruct (write_upload_frame env f name w2) as [_ Hfs].
  rewrite Hwrite in Hfs. simpl in Hfs. rewrite Hfs.
  by eapply created_files.
Qed.

Lemma transcribed_files
      (env : environment) (f : UploadFile) (ms : string) (w : world)
      (name : string) (result : list (string * pyval)) (w4 : world) :
  transcribed env f ms w name result w4 -> fs w4 = {[ name ]} ∪ fs w.
Proof.
  intros (model & w3 & Hpersisted & Hrun).
  destruct (transcribe_frame env model name w3) as [_ Hfs].
  rewrite Hrun in Hfs. simpl in Hfs. rewrite Hfs.
  by eapply persisted_files.
Qed.

Lemma union_minus_singleton (name : string) (files : gset string) :
  ({[ name ]} ∪ files) ∖ {[ name ]} = files ∖ {[ name ]}.
Proof.
  apply set_eq. intros x.
  rewrite !elem_of_difference, elem_of_union, elem_of_singleton. tauto.
Qed.

(** What is left of the files after a request left by a return or an
    [Exception]: all of them, or all but the scratch name. *)
Lemma process_audio_files
      (env : environment) (w : world) (file : option UploadFile) (ms : string) :
  unwound (fst (process_audio env file ms w)) = false ->
  fs (snd (process_audio env file ms w)) = fs w
  \/ exists f model name w2,
      file = Some f
      /\ created env f ms w model name w2
      /\ fs (snd (process_audio env file ms w)) = fs w ∖ {[ name ]}.
Proof.
  destruct (valid_request w file ms) eqn:Hvalid.
  2: { left. by destruct (process_audio_invalid env _ _ _ Hvalid) as [d ->]. }
  destruct file as [f|];
    [ | unfold valid_request in Hvalid; by rewrite andb_false_r in Hvalid ].
  destruct (process_audio_cases env w f ms Hvalid)
    as [(e & w1 & Hget & ->)
       |[(model & w1 & e & Hget & Hnew & ->)
        |[(model & name & w2 & e & w3 & Hcreated & Hwrite & ->)
         |[(model & name & w3 & e & w4 & Hpersisted & Hrun & ->)
          |[(name & result & w4 & Hdone & ->)
           |(b & w' & -> & _)]]]]];
    [ | | | | | discriminate ]; intros _.
  - left. destruct (get_model_frame env ms w) as [Hfs _].
    by rewrite Hget in Hfs.
  - left. destruct (get_model_frame env ms w) as [Hfs _].
    by rewrite Hget in Hfs.
  - right. exists f, model, name, w2. split; [ done | ]. split; [ done | ].
    destruct (write_upload_frame env f name w2) as [_ Hfs].
    rewrite Hwrite in Hfs. simpl in *.
    by rewrite Hfs, (created_files _ _ _ _ _ _ _ Hcreated),
      union_minus_singleton.
  - destruct Hpersisted as (w2 & Hcreated & Hwrite).
    right. exists f, model, name, w2. split; [ done | ]. split; [ done | ].
    destruct (transcribe_frame env model name w3) as [_ Hfs].
    rewrite Hrun in Hfs. simpl in *.
    rewrite Hfs, (persisted_files env f ms w model name w3),
      union_minus_singleton; [ done | ].
    by exists w2.
  - pose proof (transcribed_files _ _ _ _ _ _ _ Hdone) as Hfs.
    destruct Hdone as (model & w3 & (w2 & Hcreated & Hwrite) & Hrun).
    right. exists f, model, name, w2. split; [ done | ]. split; [ done | ].
    destruct (response_of result); simpl;
      by rewrite Hfs, union_minus_singleton.
Qed.

(** X11. A request that is left by a return or by an exception deriving
    from [Exception] leaves no file behind: every path that exists after
    [process_audio] existed before. *)
Theorem no_file_left_behind
        (env : environment) (w : world) (file : option UploadFile)
        (model_size : string) :
  unwound (fst (process_audio env file model_size w)) = false ->
  fs (snd (process_audio env file model_size w)) ⊆ fs w.
Proof.
  intros Hleft.
  destruct (process_audio_files env w file model_size Hleft)
    as [-> | (f & model & name & w2 & _ & _ & ->)]; [ done | ].
  intros x [Hx _]%elem_of_difference. exact Hx.
Qed.

Lemma no_file_left_behind_witness :
  fs (snd (process_audio env_nan (Some speech) "base" w0)) ⊆ fs w0.
Proof.
  apply (no_file_left_behind env_nan w0 (Some speech) "base").
  vm_compute. reflexivity.
Defined.

(** X12. When the name [NamedTemporaryFile] picked was free, as a name it
    creates is, and the request is left by a return or by an exception
    deriving from [Exception], the files after the request are exactly the
    files before it. *)
Theorem files_restored
        (env : environment) (w : world) (f : UploadFile) (model_size : string)
        (model : option model_obj) (name : string) (w2 : world) :
  created env f model_size w model name w2 ->
  name ∉ fs w ->
  unwound (fst (process_audio env (Some f) model_size w)) = false ->
  fs (snd (process_audio env (Some f) model_size w)) = fs w.
Proof.
  intros Hcreated Hfree Hleft.
  destruct (process_audio_files env w (Some f) model_size Hleft)
    as [-> | (f' & model' & name' & w2' & [= <-] & Hcreated' & ->)];
    [ done | ].
  assert (name' = name) as ->.
  { destruct Hcreated as (w1 & Hget & Hnew).
    destruct Hcreated' as (w1' & Hget' & Hnew').
    rewrite Hget in Hget'. injection Hget' as <- <-.
    rewrite Hnew in Hnew'. by injection Hnew' as <- _. }
  apply set_eq. intros x.
  rewrite elem_of_difference, elem_of_singleton.
  split; [ tauto | ]. intros Hx. split; [ done | ]. by intros ->.
Qed.

Lemma files_restored_witness :
  fs (snd (process_audio env_transcribe_fails (Some speech) "base"
             (initial_world {[ "/srv/keep.wav" ]})))
  = fs (initial_world {[ "/srv/keep.wav" ]}).
Proof.
  apply (files_restored env_transcribe_fails
           (initial_world {[ "/srv/keep.wav" ]}) speech "base"
           (Some 7%nat) scratch
           (World base_loaded ({[ scratch ]} ∪ {[ "/srv/keep.wav" ]})
                  [LoadModel "base"; Create scratch])).
  - exists (World base_loaded {[ "/srv/keep.wav" ]} [LoadModel "base"]).
    split; vm_compute; reflexivity.
  - vm_compute. discriminate.
  - vm_compute. reflexivity.
Defined.

(** ** What happens on the way to a response *)

(** X13. When [transcribe] has returned, this is what happened since the
    model was acquired, in this order and nothing else: the scratch file
    was made with the upload's extension in lower case as suffix, the
    upload was read, exactly the bytes read were written to the scratch
    file, it was flushed, and [transcribe] was called on a model, not on
    [None], with the scratch file's name, the file still existing. *)
Theorem transcribe_sees_the_written_upload
        (env : environment) (w : world) (f : UploadFile) (model_size : string)
        (name : string) (result : list (string * pyval)) (w4 : world) :
  transcribed env f model_size w name result w4 ->
  exists w1 model data,
    get_model env model_size w = (Ok (Some model), w1)
    /\ NamedTemporaryFile env (trace w1) (upload_ext f) = Ok name
    /\ upload_read env (trace w1 ++ [Create name]) f = Ok data
    /\ trace w4
       = trace w1 ++ [Create name; ReadUpload; WriteFile name data;
                      Flush name; Transcribe model name]
    /\ name ∈ fs w4.
Proof.
  intros Hdone.
  assert (Hin : name ∈ fs w4).
  { rewrite (transcribed_files _ _ _ _ _ _ _ Hdone).
    apply elem_of_union. left. by apply elem_of_singleton. }
  destruct Hdone as (model & w3 & (w2 & (w1 & Hget & Hnew) & Hwrite) & Hrun).
  destruct model as [m|]; [ | discriminate ].
  exists w1, m.
  assert (Hname : NamedTemporaryFile env (trace w1) (upload_ext f) = Ok name).
  { revert Hnew.
    unfold named_temporary_file, bind, gets, modify, ret, raise, unwind.
    simpl. destruct (NamedTemporaryFile env (trace w1) (upload_ext f));
      [ | done | done ].
    by intros [= -> _]. }
  apply named_temporary_file_ok in Hnew as ->.
  revert Hwrite.
  unfold write_upload, external, bind, gets, record, modify, of_outcome.
  simpl.
  destruct (upload_read env (trace w1 ++ [Create name]) f) as [data|e|b];
    [ | done | done ].
  destruct (temp_write _ _ _ _); [ | done | done ].
  destruct (temp_flush _ _ _) as [[]| |]; [ | done | done ].
  intros [= <-].
  revert Hrun.
  unfold transcribe, external, bind, gets, record, modify, of_outcome.
  simpl. intros [= _ <-]. simpl.
  exists data. repeat split; try done.
  by rewrite <- !app_assoc.
Qed.

Lemma transcribe_sees_the_written_upload_witness :
  exists w1 model data,
    get_model env_ok "base" w0 = (Ok (Some model), w1)
    /\ NamedTemporaryFile env_ok (trace w1) (upload_ext speech) = Ok scratch
    /\ upload_read env_ok (trace w1 ++ [Create scratch]) speech = Ok data
    /\ trace after_transcribe
       = trace w1 ++ [Create scratch; ReadUpload; WriteFile scratch data;
                      Flush scratch; Transcribe model scratch]
    /\ scratch ∈ fs after_transcribe.
Proof.
  apply (transcribe_sees_the_written_upload env_ok w0 speech "base" scratch
           sample_result after_transcribe).
  exists (Some 7%nat), after_write. split; [ | vm_compute; reflexivity ].
  exists after_create. split; [ | vm_compute; reflexivity ].
  exists after_load. split; vm_compute; reflexivity.
Defined.

(** X14. A response is only ever built from a transcription: when
    [process_audio] returns one, the request passed the checks,
    [transcribe] returned a result during it, and the response has status
    200 and holds the [text] and [segments] entries of that result and
    nothing else. *)
Theorem response_only_after_transcription
        (env : environment) (w : world) (file : option UploadFile)
        (model_size : string) (response : JSONResponse) :
  fst (process_audio env file model_size w) = Ok response ->
  exists f name result w4 text segments,
    file = Some f
    /\ valid_request w file model_size = true
    /\ transcribed env f model_size w name result w4
    /\ Dict.get "text" result = Some text
    /\ Dict.get "segments" result = Some segments
    /\ response
       = {| status := 200;
            content := PyDict [("text", text); ("segments", segments)] |}.
Proof.
  intros Hok.
  destruct (valid_request w file model_size) eqn:Hvalid.
  2: { destruct (process_audio_invalid env _ _ _ Hvalid) as [d Hd].
       rewrite Hd in Hok. discriminate. }
  destruct file as [f|];
    [ | unfold valid_request in Hvalid; by rewrite andb_false_r in Hvalid ].
  destruct (process_audio_cases env w f model_size Hvalid)
    as [(e & w1 & _ & Hrun)
       |[(model & w1 & e & _ & _ & Hrun)
        |[(model & name & w2 & e & w3 & _ & _ & Hrun)
         |[(model & name & w3 & e & w4 & _ & _ & Hrun)
          |[(name & result & w4 & Hdone & Hrun)
           |(b & w' & Hrun & _)]]]]];
    rewrite Hrun in Hok; try discriminate.
  exists f, name, result, w4.
  revert Hok. unfold response_of, respond, getitem, new_JSONResponse, bind,
    ret, raise.
  destruct (Dict.get "text" result) as [text|]; [ | discriminate ].
  destruct (Dict.get "segments" result) as [segments|]; [ | discriminate ].
  destruct (json_error _); [ discriminate | ].
  simpl. intros [= <-]. exists text, segments. by repeat split.
Qed.

Lemma response_only_after_transcription_witness :
  exists f name result w4 text segments,
    Some speech = Some f
    /\ valid_request w0 (Some speech) "base" = true
    /\ transcribed env_ok f "base" w0 name result w4
    /\ Dict.get "text" result = Some text
    /\ Dict.get "segments" result = Some segments
    /\ {| status := 200;
          content :=
            PyDict
              [("text", PyStr " Hello world.");
               ("segments",
                PyList [PyDict [("id", PyInt 0);
                                ("start", PyFloat (S754_zero false));
                                ("end", PyFloat (S754_finite false 5 (-1)));
                                ("text", PyStr " Hello world.")]])] |}
       = {| status := 200;
            content := PyDict [("text", text); ("segments", segments)] |}.
Proof.
  apply (response_only_after_transcription env_ok w0 (Some speech) "base").
  vm_compute. reflexivity.
Defined.

(** ** The loader as seen from a request *)

Lemma loader_events_app (evs1 evs2 : list event) :
  loader_events (evs1 ++ evs2) = loader_events evs1 ++ loader_events evs2.
Proof. apply List.filter_app. Qed.

Lemma loader_events_other (evs : list event) (ev : event) :
  is_loader_event ev = false ->
  loader_events (evs ++ [ev]) = loader_events evs.
Proof.
  intros Hev. rewrite loader_events_app. unfold loader_events at 2. simpl.
  rewrite Hev. apply app_nil_r.
Qed.

Lemma write_upload_no_loader
      (env : environment) (f : UploadFile) (name : string) (w : world) :
  loader_events (trace (snd (write_upload env f name w)))
  = loader_events (trace w).
Proof.
  unfold write_upload, bind. rewrite external_run.
  destruct (upload_read env (trace w) f); cbn [snd trace];
    [ | by rewrite loader_events_other | by rewrite loader_events_other ].
  rewrite external_run.
  destruct (temp_write _ _ _ _); cbn [snd trace models fs];
    [ | by rewrite !loader_events_other | by rewrite !loader_events_other ].
  rewrite external_run. cbn [snd trace].
  by rewrite !loader_events_other.
Qed.

Lemma transcribe_no_loader
      (env : environment) (model : option model_obj) (name : string)
      (w : world) :
  loader_events (trace (snd (transcribe env model name w)))
  = loader_events (trace w).
Proof.
  unfold transcribe. destruct model; [ | done ].
  rewrite external_run. cbn [snd trace]. by rewrite loader_events_other.
Qed.

Lemma created_no_loader
      (env : environment) (f : UploadFile) (ms : string) (w : world)
      (model : option model_obj) (name : string) (w2 : world) :
  created env f ms w model name w2 ->
  loader_events (trace w2)
  = loader_events (trace (snd (get_model env ms w))).
Proof.
  intros (w1 & Hget & Hnew). rewrite Hget.
  apply named_temporary_file_ok in Hnew as ->. simpl.
  by rewrite loader_events_other.
Qed.

Lemma persisted_no_loader
      (env : environment) (f : UploadFile) (ms : string) (w : world)
      (model : option model_obj) (name : string) (w3 : world) :
  persisted env f ms w model name w3 ->
  loader_events (trace w3)
  = loader_events (trace (snd (get_model env ms w))).
Proof.
  intros (w2 & Hcreated & Hwrite).
  rewrite <- (created_no_loader _ _ _ _ _ _ _ Hcreated).
  pose proof (write_upload_no_loader env f name w2) as H.
  by rewrite Hwrite in H.
Qed.

(** The loader calls and waits of a request are those of its [get_model]. *)
Lemma process_audio_loader_events
        (env : environment) (w : world) (file : option UploadFile)
        (model_size : string) :
  loader_events (trace (snd (process_audio env file model_size w)))
  = if valid_request w file model_size
    then loader_events (trace (snd (get_model env model_size w)))
    else loader_events (trace w).
Proof.
  destruct (valid_request w file model_size) eqn:Hvalid.
  2: { by destruct (process_audio_invalid env _ _ _ Hvalid) as [d ->]. }
  destruct file as [f|];
    [ | unfold valid_request in Hvalid; by rewrite andb_false_r in Hvalid ].
  destruct (process_audio_cases env w f model_size Hvalid)
    as [(e & w1 & Hget & ->)
       |[(model & w1 & e & Hget & Hnew & ->)
        |[(model & name & w2 & e & w3 & Hcreated & Hwrite & ->)
         |[(model & name & w3 & e & w4 & Hpersisted & Hrun & ->)
          |[(name & result & w4 & Hdone & ->)
           |(b & w' & -> & Hunwound)]]]]].
  6: { cbn [snd].
       destruct Hunwound
         as [Hget
            |[(model & Hget & _)
             |[(model & name & w2 & w3 & Hcreated & Hwrite & ->)
              |(model & name & w3 & w4 & Hpersisted & Hrun & ->)]]].
       - by rewrite Hget.
       - by rewrite Hget.
       - cbn [trace]. rewrite loader_events_other by done.
         rewrite <- (created_no_loader _ _ _ _ _ _ _ Hcreated).
         pose proof (write_upload_no_loader env f name w2) as H.
         by rewrite Hwrite in H.
       - cbn [trace]. rewrite loader_events_other by done.
         rewrite <- (persisted_no_loader _ _ _ _ _ _ _ Hpersisted).
         pose proof (transcribe_no_loader env model name w3) as H.
         by rewrite Hrun in H. }
  - by rewrite Hget.
  - by rewrite Hget.
  - cbn [snd trace].
    change [Close name; Unlink name] with ([Close name] ++ [Unlink name]).
    rewrite app_assoc, !loader_events_other by done.
    rewrite <- (created_no_loader _ _ _ _ _ _ _ Hcreated).
    pose proof (write_upload_no_loader env f name w2) as H.
    by rewrite Hwrite in H.
  - cbn [snd trace].
    change [Close name; Unlink name] with ([Close name] ++ [Unlink name]).
    rewrite app_assoc, !loader_events_other by done.
    rewrite <- (persisted_no_loader _ _ _ _ _ _ _ Hpersisted).
    pose proof (transcribe_no_loader env model name w3) as H.
    by rewrite Hrun in H.
  - destruct Hdone as (model & w3 & Hpersisted & Hrun).
    assert (Hw4 : loader_events (trace w4)
                  = loader_events (trace (snd (get_model env model_size w)))).
    { rewrite <- (persisted_no_loader _ _ _ _ _ _ _ Hpersisted).
      pose proof (transcribe_no_loader env model name w3) as H.
      by rewrite Hrun in H. }
    destruct (response_of result); cbn [snd trace].
    + change [Unlink name; Close name] with ([Unlink name] ++ [Close name]).
      by rewrite app_assoc, !loader_events_other.
    + change [Unlink name; Close name; Unlink name]
        with ([Unlink name] ++ [Close name] ++ [Unlink name]).
      by rewrite !app_assoc, !loader_events_other.
    + change [Unlink name; Close name] with ([Unlink name] ++ [Close name]).
      by rewrite app_assoc, !loader_events_other.
Qed.

(** X15. Whatever a request does, [process_audio] calls the loader and
    sleeps only inside [get_model]: its loader calls and waits are those
    of the one [get_model] call it makes, or none when a check fails.  So
    a request for an identifier whose model is loaded never calls the
    loader, never sleeps, and leaves the registry as it is. *)
Theorem loader_used_only_through_get_model
        (env : environment) (w : world) (file : option UploadFile)
        (model_size : string) :
  loader_events (trace (snd (process_audio env file model_size w)))
  = (if valid_request w file model_size
     then loader_events (trace (snd (get_model env model_size w)))
     else loader_events (trace w))
  /\ (forall model,
        Dict.get model_size (models w) = Some (Some model) ->
        loader_events (trace (snd (process_audio env file model_size w)))
        = loader_events (trace w)
        /\ models (snd (process_audio env file model_size w)) = models w).
Proof.
  split; [ apply process_audio_loader_events | ].
  intros model Hwarm. split.
  - rewrite process_audio_loader_events.
    rewrite (get_model_loaded _ _ _ _ Hwarm).
    by destruct (valid_request _ _ _).
  - destruct (process_audio_models env file model_size w) as [-> | ->];
      [ | done ].
    by rewrite (get_model_loaded _ _ _ _ Hwarm).
Qed.

Lemma loader_used_only_through_get_model_witness :
  loader_events
    (trace (snd (process_audio env_ok (Some speech) "base" after_load)))
  = loader_events (trace after_load)
  /\ models (snd (process_audio env_ok (Some speech) "base" after_load))
     = models after_load.
Proof.
  apply (proj2 (loader_used_only_through_get_model env_ok after_load
                  (Some speech) "base") 7%nat).
  reflexivity.
Defined.

Lemma get_model_three_failures
      (env : environment) (ms : string) (w : world) (e0 e1 e2 : exn) :
  Dict.get ms (models w) = Some None ->
  whisper_load_model env (trace w) ms = Raise e0 ->
  whisper_load_model env (trace w ++ [LoadModel ms; Sleep 1]) ms = Raise e1 ->
  whisper_load_model env
    (trace w ++ [LoadModel ms; Sleep 1; LoadModel ms; Sleep 2]) ms = Raise e2 ->
  get_model env ms w
  = (Raise e2,
     World (models w) (fs w)
           (trace w ++ [LoadModel ms; Sleep 1; LoadModel ms; Sleep 2;
                        LoadModel ms])).
Proof.
  intros Hcold H0 H1 H2.
  rewrite (get_model_cold _ _ _ Hcold).
  unfold load_model_with_retry.
  change (Z.to_nat 3) with 3%nat.
  cbn [retry_loop]. unfold try_except, bind, record, modify, ret, raise.
  rewrite external_run, H0. simpl.
  change (2 ^ 0) with 1. change (2 ^ (0 + 1)) with 2.
  rewrite <- ?app_assoc. simpl. rewrite H1. simpl.
  rewrite <- ?app_assoc. simpl. rewrite H2. simpl.
  by rewrite <- ?app_assoc.
Qed.

(** X16. A request that passed the checks for an identifier whose model
    is not loaded, when all three load attempts fail: it ends in a 500
    whose detail is [str] of the third attempt's exception, and all that
    happened is the three calls of the loader with waits of one and two
    seconds.  The upload was not read, no scratch file was made, and the
    registry is unchanged, so the next request starts the loading again. *)
Theorem request_fails_when_model_cannot_load
        (env : environment) (w : world) (f : UploadFile) (model_size : string)
        (e0 e1 e2 : exn) :
  valid_request w (Some f) model_size = true ->
  Dict.get model_size (models w) = Some None ->
  whisper_load_model env (trace w) model_size = Raise e0 ->
  whisper_load_model env
    (trace w ++ [LoadModel model_size; Sleep 1]) model_size = Raise e1 ->
  whisper_load_model env
    (trace w ++ [LoadModel model_size; Sleep 1; LoadModel model_size; Sleep 2])
    model_size = Raise e2 ->
  process_audio env (Some f) model_size w
  = (Raise (HTTPException 500 (str_exn e2)),
     World (models w) (fs w)
           (trace w ++ [LoadModel model_size; Sleep 1;
                        LoadModel model_size; Sleep 2; LoadModel model_size])).
Proof.
  intros Hvalid Hcold H0 H1 H2.
  apply run_acquisition_fails; [ done | ].
  by eapply get_model_three_failures.
Qed.

Lemma request_fails_when_model_cannot_load_witness :
  process_audio env_never_loads (Some speech) "large" w0
  = (Raise (HTTPException 500 "download failed, try 3"),
     World initial_models ∅
           [LoadModel "large"; Sleep 1; LoadModel "large"; Sleep 2;
            LoadModel "large"]).
Proof.
  apply (request_fails_when_model_cannot_load env_never_loads w0 speech
           "large" (load_error 1) (load_error 2) (load_error 3));
    reflexivity.
Defined.

(** ** The extension of the upload *)

Lemma lower_ascii_dot (a : ascii) :
  Ascii.eqb (Str.lower_ascii a) "." = Ascii.eqb a ".".
Proof. destruct a as [[] [] [] [] [] [] [] []]; reflexivity. Qed.

Lemma lower_ascii_slash (a : ascii) :
  Ascii.eqb (Str.lower_ascii a) "/" = Ascii.eqb a "/".
Proof. destruct a as [[] [] [] [] [] [] [] []]; reflexivity. Qed.

Lemma lower_ascii_idem (a : ascii) :
  Str.lower_ascii (Str.lower_ascii a) = Str.lower_ascii a.
Proof. destruct a as [[] [] [] [] [] [] [] []]; reflexivity. Qed.

Lemma lower_idem (s : string) : Str.lower (Str.lower s) = Str.lower s.
Proof.
  induction s as [|a s IH]; [ done | ].
  simpl. by rewrite lower_ascii_idem, IH.
Qed.

Lemma lower_length (s : string) : String.length (Str.lower s) = String.length s.
Proof. induction s as [|a s IH]; [ done | ]. simpl. by rewrite IH. Qed.

Lemma lower_get (s : string) (n : nat) :
  String.get n (Str.lower s) = option_map Str.lower_ascii (String.get n s).
Proof.
  revert n. induction s as [|a s IH]; intros n; [ done | ].
  destruct n as [|n]; [ done | ]. simpl. apply IH.
Qed.

Lemma lower_substring (s : string) (n m : nat) :
  String.substring n m (Str.lower s) = Str.lower (String.substring n m s).
Proof.
  revert n m. induction s as [|a s IH]; intros n m.
  - by destruct n, m.
  - destruct n as [|n].
    + destruct m as [|m]; [ done | ]. simpl. by rewrite IH.
    + simpl. apply IH.
Qed.

Lemma lower_rfind_from (c : ascii) (s : string) (i last : Z) :
  (forall a, Ascii.eqb (Str.lower_ascii a) c = Ascii.eqb a c) ->
  Str.rfind_from c (Str.lower s) i last = Str.rfind_from c s i last.
Proof.
  intros Hc. revert i last.
  induction s as [|a s IH]; intros i last; [ done | ].
  simpl. by rewrite Hc, IH.
Qed.

Lemma lower_skip_leading_dots (p : string) (d : Z) (fuel : nat) (i : Z) :
  Str.skip_leading_dots (Str.lower p) d fuel i
  = (Str.lower (fst (Str.skip_leading_dots p d fuel i)),
     Str.lower (snd (Str.skip_leading_dots p d fuel i))).
Proof.
  revert i. induction fuel as [|fuel IH]; intros i; [ done | ].
  simpl. rewrite lower_get.
  unfold Str.slice_to, Str.slice_from.
  rewrite lower_length, !lower_substring.
  destruct (String.get (Z.to_nat i) p) as [a|]; simpl; [ | done ].
  rewrite lower_ascii_dot.
  destruct (Ascii.eqb a "."); [ apply IH | done ].
Qed.

(** [splitext] and [lower] can be done in either order. *)
Lemma lower_splitext (p : string) :
  Str.splitext (Str.lower p)
  = (Str.lower (fst (Str.splitext p)), Str.lower (snd (Str.splitext p))).
Proof.
  unfold Str.splitext, Str.rfind.
  rewrite !lower_rfind_from by (apply lower_ascii_dot || apply lower_ascii_slash).
  destruct (_ <? _); [ | done ].
  apply lower_skip_leading_dots.
Qed.

(** X17. The verdict on a file name does not depend on the case of its
    letters: two uploads whose names are equal up to case have the same
    extension for the check, which is in lower case, and pass or fail the
    checks together. *)
Theorem extension_check_ignores_case
        (w : world) (f1 f2 : UploadFile) (model_size : string) :
  Str.lower (filename f1) = Str.lower (filename f2) ->
  upload_ext f1 = upload_ext f2
  /\ Str.lower (upload_ext f1) = upload_ext f1
  /\ valid_request w (Some f1) model_size
     = valid_request w (Some f2) model_size.
Proof.
  intros Hsame.
  assert (Hext : forall f, upload_ext f
                           = snd (Str.splitext (Str.lower (filename f))))
    by (intros f; unfold upload_ext; by rewrite lower_splitext).
  assert (Heq : upload_ext f1 = upload_ext f2)
    by (by rewrite !Hext, Hsame).
  split; [ exact Heq | ]. split.
  - unfold upload_ext. apply lower_idem.
  - unfold valid_request. by rewrite Heq.
Qed.

Lemma extension_check_ignores_case_witness :
  upload_ext speech = ".mp3"
  /\ valid_request w0 (Some speech) "base"
     = valid_request w0 (Some (renamed speech "SPEECH.Mp3")) "base".
Proof.
  split; [ reflexivity | ].
  apply (extension_check_ignores_case w0 speech (renamed speech "SPEECH.Mp3")
           "base").
  reflexivity.
Defined.

Lemma rfind_from_absent (c : ascii) (s : string) (i last : Z) :
  has_char c s = false -> Str.rfind_from c s i last = last.
Proof.
  revert i last. induction s as [|a s IH]; intros i last; [ done | ].
  simpl. intros [Ha Hs]%orb_false_elim. rewrite Ha. by apply IH.
Qed.

Lemma rfind_from_lower_bound (c : ascii) (s : string) (i last : Z) :
  -1 <= last -> -1 <= i -> -1 <= Str.rfind_from c s i last.
Proof.
  revert i last. induction s as [|a s IH]; intros i last Hlast Hi; [ done | ].
  simpl. apply IH; [ destruct (Ascii.eqb a c); lia | lia ].
Qed.

(** X18. An upload whose file name has no dot has no extension and is
    rejected with the 400 of the file type check, nothing else being done. *)
Theorem name_without_dot_rejected
        (env : environment) (w : world) (f : UploadFile) (model_size : string) :
  has_char "." (filename f) = false ->
  Dict.mem model_size (models w) = true ->
  upload_ext f = ""
  /\ process_audio env (Some f) model_size w
     = (Raise (HTTPException 400
                 ("File type not supported. Allowed types: "
                  ++ Str.join ", " (set_iteration env allowed_extensions))),
        w).
Proof.
  intros Hdot Hmem.
  assert (Hext : upload_ext f = "").
  { unfold upload_ext, Str.splitext, Str.rfind.
    rewrite (rfind_from_absent "." _ _ _ Hdot).
    pose proof (rfind_from_lower_bound "/" (filename f) 0 (-1)) as Hsep.
    destruct (Z.ltb_spec (Str.rfind_from "/" (filename f) 0 (-1)) (-1));
      [ lia | done ]. }
  split; [ exact Hext | ].
  unfold process_audio, bind, gets, raise. rewrite Hmem, Hext. reflexivity.
Qed.

Lemma name_without_dot_rejected_witness :
  process_audio env_ok (Some (renamed speech "recording")) "base" w0
  = (Raise (HTTPException 400
              "File type not supported. Allowed types: .mp3, .wav, .m4a"),
     w0).
Proof.
  apply (name_without_dot_rejected env_ok w0 (renamed speech "recording")
           "base");
    reflexivity.
Defined.

Lemma string_length_app (s1 s2 : string) :
  String.length (s1 ++ s2) = (String.length s1 + String.length s2)%nat.
Proof. induction s1 as [|a s1 IH]; [ done | ]. simpl. by rewrite IH. Qed.

Lemma string_app_assoc (s1 s2 s3 : string) :
  ((s1 ++ s2) ++ s3 = s1 ++ (s2 ++ s3))%string.
Proof.
  induction s1 as [|a s1 IH]; [ done | ].
  change (String a ((s1 ++ s2) ++ s3)%string
          = String a (s1 ++ (s2 ++ s3))%string).
  f_equal. exact IH.
Qed.

Lemma substring_whole (s : string) :
  String.substring 0 (String.length s) s = s.
Proof. induction s as [|a s IH]; [ done | ]. simpl. by rewrite IH. Qed.

Lemma substring_prefix (s1 s2 : string) :
  String.substring 0 (String.length s1) (s1 ++ s2) = s1.
Proof.
  induction s1 as [|a s1 IH]; [ by destruct s2 | ]. simpl. by rewrite IH.
Qed.

Lemma substring_suffix (s1 s2 : string) (m : nat) :
  String.substring (String.length s1) m (s1 ++ s2) = String.substring 0 m s2.
Proof. induction s1 as [|a s1 IH]; [ done | ]. simpl. exact IH. Qed.

Lemma get_after_prefix (s1 s2 : string) (a : ascii) :
  String.get (String.length s1) (s1 ++ String a s2) = Some a.
Proof. induction s1 as [|b s1 IH]; [ done | ]. simpl. exact IH. Qed.

Lemma has_char_app (c : ascii) (s1 s2 : string) :
  has_char c (s1 ++ s2) = has_char c s1 || has_char c s2.
Proof.
  induction s1 as [|a s1 IH]; [ done | ]. simpl. by rewrite IH, orb_assoc.
Qed.

Lemma rfind_from_app (c : ascii) (s1 s2 : string) (i last : Z) :
  Str.rfind_from c (s1 ++ s2) i last
  = Str.rfind_from c s2 (i + Z.of_nat (String.length s1))
      (Str.rfind_from c s1 i last).
Proof.
  revert i last. induction s1 as [|a s1 IH]; intros i last.
  - simpl. by rewrite Z.add_0_r.
  - change (Str.rfind_from c (s1 ++ s2) (i + 1)
              (if Ascii.eqb a c then i else last)
            = Str.rfind_from c s2 (i + Z.of_nat (S (String.length s1)))
                (Str.rfind_from c s1 (i + 1)
                   (if Ascii.eqb a c then i else last))).
    rewrite IH. f_equal. lia.
Qed.

(** The loop over the leading dots stops at the first other character. *)
Lemma skip_leading_dots_splits (pre suf rest : string) (d : Z) :
  all_dots suf = false ->
  Str.skip_leading_dots (pre ++ suf ++ rest) d (String.length suf)
    (Z.of_nat (String.length pre))
  = (Str.slice_to (pre ++ suf ++ rest) d, Str.slice_from (pre ++ suf ++ rest) d).
Proof.
  revert pre. induction suf as [|a suf IH]; intros pre Hsuf; [ done | ].
  cbn [String.length Str.skip_leading_dots].
  rewrite Nat2Z.id.
  change ((String a suf ++ rest)%string) with (String a (suf ++ rest)%string).
  rewrite get_after_prefix.
  destruct (Ascii.eqb a ".") eqn:Ha; [ | done ].
  simpl in Hsuf. rewrite Ha in Hsuf. simpl in Hsuf.
  specialize (IH (pre ++ String a "")%string Hsuf).
  rewrite string_length_app in IH. simpl in IH.
  replace (Z.of_nat (String.length pre + 1)) with (Z.of_nat (String.length pre) + 1)
    in IH by lia.
  rewrite string_app_assoc in IH. exact IH.
Qed.

(** [splitext] on a plain file name [stem.x]. *)
Lemma splitext_plain_name (stem x : string) :
  has_char "/" stem = false ->
  all_dots stem = false ->
  has_char "." x = false ->
  has_char "/" x = false ->
  Str.splitext (stem ++ String "." x) = (stem, String "." x).
Proof.
  intros Hslash Hdots Hxdot Hxslash.
  unfold Str.splitext, Str.rfind.
  assert (Hsep : Str.rfind_from "/" (stem ++ String "." x) 0 (-1) = -1).
  { apply rfind_from_absent. rewrite has_char_app, Hslash. simpl.
    exact Hxslash. }
  assert (Hdot : Str.rfind_from "." (stem ++ String "." x) 0 (-1)
                 = Z.of_nat (String.length stem)).
  { rewrite rfind_from_app. cbn [Str.rfind_from].
    change (Ascii.eqb "." ".") with true. cbv iota.
    by rewrite (rfind_from_absent "." x _ _ Hxdot). }
  rewrite Hsep, Hdot.
  destruct (Z.ltb_spec (-1) (Z.of_nat (String.length stem))); [ | lia ].
  replace (Z.of_nat (String.length stem) - (-1 + 1))
    with (Z.of_nat (String.length stem)) by lia.
  rewrite Nat2Z.id.
  pose proof (skip_leading_dots_splits "" stem (String "." x)
                (Z.of_nat (String.length stem)) Hdots) as Hskip.
  change (("" ++ stem ++ String "." x)%string)
    with ((stem ++ String "." x)%string) in Hskip.
  change (Z.of_nat (String.length "")) with 0 in Hskip.
  change (-1 + 1) with 0. rewrite Hskip.
  unfold Str.slice_to, Str.slice_from. rewrite Nat2Z.id.
  rewrite substring_prefix, substring_suffix.
  rewrite string_length_app.
  replace (String.length stem + String.length (String "." x)
           - String.length stem)%nat
    with (String.length (String "." x)) by lia.
  by rewrite substring_whole.
Qed.

(** X19. For a plain file name [stem.x], with no slash, a stem that is not
    made of dots only and no dot in [x], the extension checked is [.x] in
    lower case, so the request passes the checks exactly when the
    identifier is registered and [x] is [mp3], [wav] or [m4a] up to case. *)
Theorem plain_name_accepted_by_extension
        (w : world) (f : UploadFile) (model_size stem x : string) :
  filename f = (stem ++ String "." x)%string ->
  has_char "/" stem = false ->
  all_dots stem = false ->
  has_char "." x = false ->
  has_char "/" x = false ->
  upload_ext f = String "." (Str.lower x)
  /\ valid_request w (Some f) model_size
     = Dict.mem model_size (models w)
       && set_mem (Str.lower x) ["mp3"; "wav"; "m4a"].
Proof.
  intros Hname Hslash Hdots Hxdot Hxslash.
  assert (Hext : upload_ext f = String "." (Str.lower x)).
  { unfold upload_ext. rewrite Hname, splitext_plain_name by done.
    simpl. reflexivity. }
  split; [ exact Hext | ].
  unfold valid_request. rewrite Hext. reflexivity.
Qed.

Lemma plain_name_accepted_by_extension_witness :
  upload_ext (renamed speech "my.talk.M4A") = ".m4a"
  /\ valid_request w0 (Some (renamed speech "my.talk.M4A")) "large" = true.
Proof.
  destruct (plain_name_accepted_by_extension w0 (renamed speech "my.talk.M4A")
              "large" "my.talk" "M4A")
    as [Hext Hvalid]; try reflexivity.
  split; [ exact Hext | ]. rewrite Hvalid. reflexivity.
Defined.

(** ** Samples for the release counts *)


Lemma release_once_when_response_built_witness :
  count_unlinks scratch
    (trace (snd (process_audio env_ok (Some speech) "base" w0)))
  = 1%nat.
Proof.
  apply (release_once_when_response_built env_ok w0 speech "base"
           (Some 7%nat) scratch after_create).
  - reflexivity.
  - exists after_load. split; vm_compute; reflexivity.
  - vm_compute. reflexivity.
  - intros result w4 (model & w3 & _ & Hrun).
    destruct model as [m|]; [ | discriminate ].
    injection Hrun as <- _. by eexists.
Defined.
